(** * quant-cloud-init-action: environment/tag resolution and the [run] procedure

    A shallow embedding of the action's TypeScript source and the
    properties of its specification.  The source embedded is the variant of
    [index.ts] with pull-request refs, [skip_docker_login] and
    [image_suffix_clean] (the last of the three in [src/unnamed/part_000],
    lines 762-1162; line numbers below are those of that file).  The file
    [src/src/index.ts] is an earlier variant of the same program, without
    pull requests, where tags are not production and both slugs keep ["."].

    Modelling conventions.
    - A JavaScript string is a [string]: a sequence of code units, here the
      byte-valued ones.  The regular expressions of the source only use the
      ASCII classes [a-zA-Z0-9], [.] and [\d], and [toLowerCase] is only ever
      applied to the result of such a replacement, which is made of ASCII
      letters, digits, [.] and [-].
    - [core.getInput] returns a string, the empty string when the input is
      not supplied; an override is "present" when it is truthy, that is
      non-empty.  [process.env.X] is a string or [undefined]: [option string].
    - A promise may be rejected with any value, [null] and [undefined]
      included ([Thrown]); a property access on these two throws a
      [TypeError], with the message Node gives it.
    - The remote API and the container engine are an oracle ([Remote]); [run]
      is written in a writer monad with early [return] and [throw], whose
      trace records every remote call, [setFailed], [setOutput] and log line
      in program order. *)

From Stdlib Require Import String Ascii List Bool ZArith Lia.
Import ListNotations.

Open Scope string_scope.

(** ** JavaScript string primitives used by the source *)

Module JS.

(** Truthiness of a string: non-empty. *)
Definition truthy (s : string) : bool :=
  match s with
  | EmptyString => false
  | String _ _ => true
  end.

(** Truthiness of [string | null | undefined]. *)
Definition truthy_opt (o : option string) : bool :=
  match o with
  | None => false
  | Some s => truthy s
  end.

(** Template-literal rendering of [string | undefined]. *)
Definition show (o : option string) : string :=
  match o with
  | None => "undefined"
  | Some s => s
  end.

Definition show_bool (b : bool) : string :=
  if b then "true" else "false".

(** [s.startsWith(p)]. *)
Definition startsWith (s p : string) : bool := String.prefix p s.

(** The string without its first [n] code units. *)
Fixpoint drop (n : nat) (s : string) : string :=
  match n, s with
  | O, _ => s
  | S _, EmptyString => EmptyString
  | S n', String _ s' => drop n' s'
  end.

(** [s.replace(pat, rep)] for a string pattern: the first occurrence of
    [pat] is replaced ([rep] holds no [$] pattern in the source: it is
    the empty string). *)
Fixpoint replaceFirst (pat rep s : string) : string :=
  if String.prefix pat s then rep ++ drop (String.length pat) s
  else match s with
       | EmptyString => EmptyString
       | String c s' => String c (replaceFirst pat rep s')
       end.

Definition between (lo hi c : ascii) : bool :=
  (N_of_ascii lo <=? N_of_ascii c)%N && (N_of_ascii c <=? N_of_ascii hi)%N.

Definition isUpper (c : ascii) : bool := between "A" "Z" c.
Definition isLower (c : ascii) : bool := between "a" "z" c.
(** [\d] *)
Definition isDigit (c : ascii) : bool := between "0" "9" c.
(** [[a-zA-Z0-9]] *)
Definition isAlnum (c : ascii) : bool := isLower c || isUpper c || isDigit c.
(** [[a-zA-Z0-9.]] *)
Definition isAlnumDot (c : ascii) : bool := isAlnum c || Ascii.eqb c ".".

Fixpoint map (f : ascii -> ascii) (s : string) : string :=
  match s with
  | EmptyString => EmptyString
  | String c s' => String (f c) (map f s')
  end.

Fixpoint forallb (p : ascii -> bool) (s : string) : bool :=
  match s with
  | EmptyString => true
  | String c s' => p c && forallb p s'
  end.

(** [s.replace(/[^...]/g, '-')]: every code unit outside the class [keep]
    becomes ["-"]. *)
Definition replaceOutside (keep : ascii -> bool) (s : string) : string :=
  map (fun c => if keep c then c else "-"%char) s.

Definition lowerChar (c : ascii) : ascii :=
  if isUpper c then ascii_of_N (N_of_ascii c + 32) else c.

(** [s.toLowerCase()], on the ASCII strings it is applied to. *)
Definition toLowerCase (s : string) : string := map lowerChar s.

(** [s.split('/')]: the pieces between the separators; never empty. *)
Fixpoint split (sep : ascii) (s : string) : list string :=
  match s with
  | EmptyString => [EmptyString]
  | String c s' =>
      if Ascii.eqb c sep then EmptyString :: split sep s'
      else match split sep s' with
           | [] => [String c EmptyString]
           | p :: ps => String c p :: ps
           end
  end.

(** The longest prefix of [s] in the class [p], and what follows it. *)
Fixpoint span (p : ascii -> bool) (s : string) : string * string :=
  match s with
  | EmptyString => (EmptyString, EmptyString)
  | String c s' =>
      if p c then let (a, b) := span p s' in (String c a, b)
      else (EmptyString, s)
  end.

End JS.

(** ** The pure helpers of the source *)

(** [isProductionBranch] (l. 788-791): membership in the production-branch
    array. *)
Definition productionBranches (masterBranchOverride : string) : list string :=
  if JS.truthy masterBranchOverride then [masterBranchOverride]
  else ["main"; "master"].

Definition isProductionBranch (branch masterBranchOverride : string) : bool :=
  existsb (String.eqb branch) (productionBranches masterBranchOverride).

(** [isTag] (l. 796-798) and [isPullRequest] (l. 803-805). *)
Definition isTag (ref : string) : bool := JS.startsWith ref "refs/tags/".

Definition isPullRequest (ref : string) : bool := JS.startsWith ref "refs/pull/".

(** [extractPullRequestId] (l. 810-817): [ref.match(/^refs\/pull\/(\d+)\//)].  The greedy
    [\d+] takes the whole run of digits after the prefix; since ["/"] is not
    a digit, the match succeeds exactly when that run is non-empty and is
    followed by ["/"]. *)
Definition extractPullRequestId (ref : string) : option string :=
  if JS.startsWith ref "refs/pull/" then
    match JS.span JS.isDigit (JS.drop 10 ref) with
    | (String d ds, String "/" _) => Some (String d ds)
    | _ => None
    end
  else None.

(** The two slugs: [s.replace(/[^a-zA-Z0-9]/g, '-').toLowerCase()] of
    environment names (l. 850, 853, 1000) and
    [s.replace(/[^a-zA-Z0-9.]/g, '-').toLowerCase()] of image suffixes
    (l. 882, 885). *)
Definition envSlug (branch : string) : string :=
  JS.toLowerCase (JS.replaceOutside JS.isAlnum branch).

Definition imageSlug (branch : string) : string :=
  JS.toLowerCase (JS.replaceOutside JS.isAlnumDot branch).

(** [generateEnvironmentName] (l. 822-855). *)
Definition generateEnvironmentName
    (branch environmentNameOverride masterBranchOverride : string)
    (isTagRef isPrRef : bool) (prId : option string) : string :=
  if JS.truthy environmentNameOverride then environmentNameOverride
  else if isTagRef then "production"
  else if isPrRef && JS.truthy_opt prId then "pr-" ++ JS.show prId
  else if isProductionBranch branch masterBranchOverride then "production"
  else if String.eqb branch "develop" then "develop"
  else if JS.startsWith branch "feature/" then
    JS.toLowerCase (JS.replaceOutside JS.isAlnum branch)
  else
    JS.toLowerCase (JS.replaceOutside JS.isAlnum branch).

(** [generateImageSuffix] (l. 860-888). *)
Definition generateImageSuffix
    (branch masterBranchOverride : string)
    (isTagRef isPrRef : bool) (prId : option string) : string :=
  if isTagRef then "-" ++ branch
  else if isPrRef && JS.truthy_opt prId then "-pr-" ++ JS.show prId
  else if isProductionBranch branch masterBranchOverride then "-latest"
  else if String.eqb branch "develop" then "-develop"
  else if JS.startsWith branch "feature/" then
    "-" ++ JS.toLowerCase (JS.replaceOutside JS.isAlnumDot branch)
  else
    "-" ++ JS.toLowerCase (JS.replaceOutside JS.isAlnumDot branch).

(** [stripProtocol] (l. 893-895): [endpoint.replace(/^https?:\/\//, '')]. *)
Definition stripProtocol (endpoint : string) : string :=
  if JS.startsWith endpoint "https://" then JS.drop 8 endpoint
  else if JS.startsWith endpoint "http://" then JS.drop 7 endpoint
  else endpoint.

(** [imageSuffix.replace(/^-/, '')] (l. 1147). *)
Definition stripLeadingDash (s : string) : string :=
  match s with
  | String "-" s' => s'
  | _ => s
  end.

(** ** Inputs, process environment and the remote oracle *)

(** The values [core.getInput] returns for each configuration input. *)
Record Inputs := {
  quant_api_key : string;
  quant_organization : string;
  quant_application : string;
  master_branch_override : string;
  environment_name_override : string;
  base_url : string;
  skip_docker_login : string
}.

Record ProcessEnv := {
  GITHUB_REF : option string;
  GITHUB_REPOSITORY : option string;
  GITHUB_EVENT_NAME : option string
}.

(** A thrown value other than [null] and [undefined]: what the handlers of
    the source inspect of it ([instanceof Error], [.message],
    [.response?.status], [.body?.message]). *)
Record ErrorObject := {
  obj_instanceofError : bool;
  obj_message : string;
  obj_response_status : option Z;
  obj_body_message : option string
}.

(** A value thrown by the API client or by [exec]: [null], [undefined], or
    any other value. *)
Inductive Thrown : Type :=
| ThrownNull
| ThrownUndefined
| ThrownObject (o : ErrorObject).

Definition nullish (e : Thrown) : bool :=
  match e with
  | ThrownObject _ => false
  | _ => true
  end.

(** [e instanceof Error] *)
Definition instanceofError (e : Thrown) : bool :=
  match e with
  | ThrownObject o => obj_instanceofError o
  | _ => false
  end.

(** [e.message], read by the source only after [e instanceof Error]. *)
Definition message (e : Thrown) : string :=
  match e with
  | ThrownObject o => obj_message o
  | _ => EmptyString
  end.

(** The value of [e.response?.status] where [e] is not [null] or
    [undefined]. *)
Definition response_status (e : Thrown) : option Z :=
  match e with
  | ThrownObject o => obj_response_status o
  | _ => None
  end.

(** [e.body?.message], read by the source only after [e instanceof Error]. *)
Definition body_message (e : Thrown) : option string :=
  match e with
  | ThrownObject o => obj_body_message o
  | _ => None
  end.

Inductive Response (A : Type) : Type :=
| Fulfilled (a : A)
| Rejected (e : Thrown).
Arguments Fulfilled {A} a.
Arguments Rejected {A} e.

(** [registryToken.data]; a missing field is the empty string (only the
    truthiness of the fields is inspected). *)
Record RegistryToken := {
  endpoint : string;
  username : string;
  password : string
}.

(** What the outside world answers.  [getEcrLoginCredentials] takes the
    number of earlier calls of that endpoint in the run, as the two calls
    need not agree. *)
Record Remote := {
  listApplications : string -> Response unit;
  getEcrLoginCredentials : nat -> string -> Response (option RegistryToken);
  getApplication : string -> option string -> Response unit;
  getEnvironment : string -> option string -> string -> Response unit;
  exec_docker : list string -> Response unit
}.

Inductive Call : Type :=
| ListApplications (organization : string)
| GetEcrLoginCredentials (organization : string)
| GetApplication (organization : string) (application : option string)
| GetEnvironment (organization : string) (application : option string)
                 (environment : string).

Inductive Level : Type := Info | Warning | Error.

Inductive Event : Type :=
| Api (c : Call)
| Exec (tool : string) (args : list string)
| SetFailed (msg : string)
| SetOutput (name : string) (value : option string)
| Log (l : Level) (msg : string).

(** ** The monad of [run]: a trace, and how the computation completed *)

Inductive Completion (A : Type) : Type :=
| Normal (a : A)
| Return
| Throw (e : Thrown).
Arguments Normal {A} a.
Arguments Return {A}.
Arguments Throw {A} e.

Definition M (A : Type) : Type := (list Event * Completion A)%type.

Definition ret {A} (a : A) : M A := ([], Normal a).

Definition bind {A B} (m : M A) (f : A -> M B) : M B :=
  match m with
  | (t, Normal a) => let (t', c) := f a in ((t ++ t')%list, c)
  | (t, Return) => (t, Return)
  | (t, Throw e) => (t, Throw e)
  end.

Notation "x <- m ;; k" := (bind m (fun x => k))
  (at level 61, m at next level, right associativity).
Notation "m ;; k" := (bind m (fun _ => k))
  (at level 61, right associativity).

Definition emit (e : Event) : M unit := ([e], Normal tt).
Definition returnM {A} : M A := ([], Return).
Definition throw {A} (e : Thrown) : M A := ([], Throw e).

(** [try { m } catch (e) { h e }] *)
Definition try_catch {A} (m : M A) (h : Thrown -> M A) : M A :=
  match m with
  | (t, Throw e) => let (t', c) := h e in ((t ++ t')%list, c)
  | _ => m
  end.

(** [await] of a remote call. *)
Definition await {A} (c : Call) (r : Response A) : M A :=
  match r with
  | Fulfilled a => ([Api c], Normal a)
  | Rejected e => ([Api c], Throw e)
  end.

Definition info (msg : string) : M unit := emit (Log Info msg).
Definition warning (msg : string) : M unit := emit (Log Warning msg).
Definition error (msg : string) : M unit := emit (Log Error msg).
Definition setFailed (msg : string) : M unit := emit (SetFailed msg).
Definition setOutput (name : string) (value : option string) : M unit :=
  emit (SetOutput name value).

(** [core.getInput(name, { required: true })] throws when the input is not
    supplied. *)
Definition getInput_required (name value : string) : M string :=
  if JS.truthy value then ret value
  else throw (ThrownObject
                {| obj_instanceofError := true;
                   obj_message := "Input required and not supplied: " ++ name;
                   obj_response_status := None;
                   obj_body_message := None |}).

(** The [TypeError] of a property access on [null] or [undefined]. *)
Definition typeError (e : Thrown) (property : string) : Thrown :=
  ThrownObject
    {| obj_instanceofError := true;
       obj_message :=
         "Cannot read properties of "
         ++ match e with ThrownNull => "null" | _ => "undefined" end
         ++ " (reading '" ++ property ++ "')";
       obj_response_status := None;
       obj_body_message := None |}.

(** [e.response?.status]: the optional chain guards [.status] only, so the
    access throws when [e] itself is [null] or [undefined]. *)
Definition responseStatus (e : Thrown) : M (option Z) :=
  if nullish e then throw (typeError e "response")
  else ret (response_status e).

(** ** The stages of [run] *)

Record RefInfo := {
  branch : string;
  isTagRef : bool;
  isPrRef : bool;
  prId : option string
}.

Record Target := {
  applicationName : option string;
  environmentName : string;
  isProduction : bool;
  imageSuffix : string
}.

(** "Determine branch, tag, or pull request" (l. 948-971). *)
Definition classifyRef (githubRef : string) : M RefInfo :=
  if JS.startsWith githubRef "refs/tags/" then
    ret {| branch := JS.replaceFirst "refs/tags/" "" githubRef;
           isTagRef := true; isPrRef := false; prId := None |}
  else if JS.startsWith githubRef "refs/pull/" then
    let prId := extractPullRequestId githubRef in
    if negb (JS.truthy_opt prId) then
      setFailed ("Could not extract pull request ID from ref: " ++ githubRef) ;;
      returnM
    else
      ret {| branch := "pr-" ++ JS.show prId;
             isTagRef := false; isPrRef := true; prId := prId |}
  else if JS.startsWith githubRef "refs/heads/" then
    ret {| branch := JS.replaceFirst "refs/heads/" "" githubRef;
           isTagRef := false; isPrRef := false; prId := None |}
  else
    setFailed ("Unknown ref format: " ++ githubRef) ;;
    returnM.

(** "Determine application name" up to the image suffix (l. 973-1005): no
    effect but the values of the locals. *)
Definition resolve (inp : Inputs) (githubRepository : string) (r : RefInfo)
  : Target :=
  let applicationOverride := quant_application inp in
  let masterBranchOverride := master_branch_override inp in
  let environmentNameOverride := environment_name_override inp in
  let applicationName :=
    if JS.truthy applicationOverride then Some applicationOverride
    else nth_error (JS.split "/" githubRepository) 1 in
  let isProduction :=
    if JS.truthy environmentNameOverride then isTagRef r
    else isProductionBranch (branch r) masterBranchOverride || isTagRef r in
  let environmentName :=
    generateEnvironmentName (branch r) environmentNameOverride
      masterBranchOverride (isTagRef r) (isPrRef r) (prId r) in
  let imageSuffix :=
    if JS.truthy environmentNameOverride then
      let safeEnvName :=
        JS.toLowerCase (JS.replaceOutside JS.isAlnum environmentNameOverride) in
      "-" ++ safeEnvName
    else
      generateImageSuffix (branch r) masterBranchOverride
        (isTagRef r) (isPrRef r) (prId r) in
  {| applicationName := applicationName;
     environmentName := environmentName;
     isProduction := isProduction;
     imageSuffix := imageSuffix |}.

Definition errorMessage (e : Thrown) : string :=
  if instanceofError e then message e else "Unknown error".

(** [status === 422 || status === 401 || status === 403] *)
Definition isAuthStatus (status : option Z) : bool :=
  match status with
  | Some s => ((s =? 422) || (s =? 401) || (s =? 403))%Z
  | None => false
  end.

(** "Validate organization and API key by checking if project exists"
    (l. 1016-1097): yields [(projectExists, environmentExists)]. *)
Definition validate (remote : Remote) (organization : string)
    (applicationName : option string) (environmentName : string)
  : M (bool * bool) :=
  try_catch
    (info "🔍 Validating Quant Cloud access..." ;;
     try_catch
       (await (ListApplications organization)
              (listApplications remote organization))
       (fun orgError =>
          setFailed ("Organization '" ++ organization
                     ++ "' does not exist or is not accessible: "
                     ++ errorMessage orgError) ;;
          returnM) ;;
     try_catch
       (registryToken <- await (GetEcrLoginCredentials organization)
                               (getEcrLoginCredentials remote 0 organization) ;;
        match registryToken with
        | Some data =>
            if negb (JS.truthy (password data)) then
              warning "No Quant Cloud Image Registry credentials found during validation"
            else ret tt
        | None =>
            warning "No Quant Cloud Image Registry credentials found during validation"
        end)
       (fun ecrError =>
          status <- responseStatus ecrError ;;
          if isAuthStatus status then
            setFailed ("Failed to validate organization credentials: "
                       ++ errorMessage ecrError) ;;
            returnM
          else
            warning ("Could not retrieve ECR credentials during validation: "
                     ++ errorMessage ecrError)) ;;
     projectExists <-
       try_catch
         (await (GetApplication organization applicationName)
                (getApplication remote organization applicationName) ;;
          info ("✅ Application '" ++ JS.show applicationName ++ "' exists") ;;
          ret true)
         (fun appError =>
            status <- responseStatus appError ;;
            if isAuthStatus status then
              setFailed ("Failed to validate application: "
                         ++ errorMessage appError) ;;
              returnM
            else
              info ("ℹ️ Application '" ++ JS.show applicationName
                    ++ "' does not exist (will be created on first deployment)") ;;
              ret false) ;;
     environmentExists <-
       try_catch
         (await (GetEnvironment organization applicationName environmentName)
                (getEnvironment remote organization applicationName
                   environmentName) ;;
          info ("✅ Environment '" ++ environmentName ++ "' exists") ;;
          ret true)
         (fun envError =>
            info ("ℹ️ Environment '" ++ environmentName
                  ++ "' does not exist (will be created on first deployment)") ;;
            ret false) ;;
     ret (projectExists, environmentExists))
    (fun err =>
       error "❌ Organization and API key validation failed" ;;
       (if instanceofError err then
          match body_message err with
          | Some m =>
              if JS.truthy m then
                if String.eqb m "Unable to find matching result" then
                  setFailed "Either the organization does not exist or you do not have access to it"
                else setFailed m
              else setFailed (message err)
          | None => setFailed (message err)
          end
        else setFailed "An unknown error occurred during validation") ;;
       returnM).

(** [dockerLogin] (l. 900-917): the container engine's login command,
    silent. *)
Definition dockerLogin (remote : Remote) (endpoint username password : string)
  : M unit :=
  try_catch
    (let args := ["login"; endpoint; "--username"; username;
                  "--password"; password] in
     match exec_docker remote args with
     | Fulfilled _ => ([Exec "docker" args], Normal tt)
     | Rejected e => ([Exec "docker" args], Throw e)
     end ;;
     info "✅ Docker login successful")
    (fun err =>
       error "❌ Docker login failed" ;;
       throw err).

(** "Get Quant Cloud Image Registry credentials and login to Docker", then
    "Set outputs" (l. 1099-1159). *)
Definition loginAndPublish (remote : Remote) (inp : Inputs)
    (organization : string) (t : Target)
    (projectExists environmentExists : bool) : M unit :=
  try_catch
    (creds <-
       try_catch
         (registryToken <- await (GetEcrLoginCredentials organization)
                                 (getEcrLoginCredentials remote 1 organization) ;;
          match registryToken with
          | Some data =>
              if JS.truthy (password data) && JS.truthy (endpoint data)
                 && JS.truthy (username data)
              then ret (endpoint data, username data, password data, true)
              else ret ("", "", "", false)
          | None => ret ("", "", "", false)
          end)
         (fun err =>
            warning ("Failed to retrieve Quant Cloud Image Registry credentials: "
                     ++ errorMessage err) ;;
            ret ("", "", "", false)) ;;
     let '(endpoint, username, password, hasCredentials) := creds in
     let skipDockerLogin := String.eqb (skip_docker_login inp) "true" in
     (if hasCredentials then
        let strippedEndpoint := stripProtocol endpoint in
        (if skipDockerLogin then
           info "⚠️ Skipping Docker login as requested"
         else dockerLogin remote endpoint username password) ;;
        setOutput "stripped_endpoint" (Some strippedEndpoint)
      else
        if skipDockerLogin then
          info "⚠️ Skipping Docker login as requested (and no credentials available)"
        else
          setFailed "Failed to retrieve Quant Cloud Image Registry credentials and login was not skipped" ;;
          returnM) ;;
     setOutput "project_exists" (Some (JS.show_bool projectExists)) ;;
     setOutput "environment_exists" (Some (JS.show_bool environmentExists)) ;;
     setOutput "quant_application" (applicationName t) ;;
     setOutput "environment_name" (Some (environmentName t)) ;;
     setOutput "is_production" (Some (JS.show_bool (isProduction t))) ;;
     setOutput "image_suffix" (Some (imageSuffix t)) ;;
     setOutput "image_suffix_clean" (Some (stripLeadingDash (imageSuffix t))) ;;
     info ("✅ Quant Cloud initialized: " ++ JS.show (applicationName t) ++ "/"
           ++ environmentName t ++ " "
           ++ (if isProduction t then "(production)" else "(non-production)")
           ++ " " ++ imageSuffix t))
    (fun err =>
       error "Failed to complete initialization" ;;
       if instanceofError err then setFailed (message err)
       else setFailed "An unknown error occurred during initialization").

(** Validation and login on the resolved target: the rest of [run] once
    the ref is classified as [r]. *)
Definition afterClassify (inp : Inputs) (remote : Remote) (repo : string)
    (r : RefInfo) : M unit :=
  let t := resolve inp repo r in
  v <- validate remote (quant_organization inp) (applicationName t)
         (environmentName t) ;;
  let '(projectExists, environmentExists) := v in
  loginAndPublish remote inp (quant_organization inp) t
    projectExists environmentExists.

(** [run] (l. 923-1160): the main function of the action. *)
Definition run (inp : Inputs) (env : ProcessEnv) (remote : Remote) : M unit :=
  apiKey <- getInput_required "quant_api_key" (quant_api_key inp) ;;
  organization <- getInput_required "quant_organization" (quant_organization inp) ;;
  baseUrl <-
    (if negb (JS.truthy (base_url inp)) then
       ret "https://dashboard.quantcdn.io/api/v3"
     else
       warning ("Using non-default base URL: " ++ base_url inp) ;;
       ret (base_url inp)) ;;
  match GITHUB_REF env, GITHUB_REPOSITORY env with
  | Some (String c1 r1), Some (String c2 r2) =>
      let githubRef := String c1 r1 in
      let githubRepository := String c2 r2 in
      r <- classifyRef githubRef ;;
      afterClassify inp remote githubRepository r
  | _, _ =>
      setFailed "GitHub context not available. This action must run in a GitHub Actions workflow." ;;
      returnM
  end.

(** ** Observations on a finished run *)

Definition is_api (e : Event) : bool :=
  match e with Api _ => true | _ => false end.

Definition is_exec (e : Event) : bool :=
  match e with Exec _ _ => true | _ => false end.

Definition is_setFailed (e : Event) : bool :=
  match e with SetFailed _ => true | _ => false end.

(** The remote API calls of a run, in order. *)
Definition api_calls {A} (m : M A) : list Event := filter is_api (fst m).

(** The container-engine commands of a run. *)
Definition execs {A} (m : M A) : list Event := filter is_exec (fst m).

(** The messages the run was failed with. *)
Fixpoint failures (t : list Event) : list string :=
  match t with
  | [] => []
  | SetFailed msg :: t' => msg :: failures t'
  | _ :: t' => failures t'
  end.

(** The published outputs, in order. *)
Fixpoint outputs (t : list Event) : list (string * option string) :=
  match t with
  | [] => []
  | SetOutput n v :: t' => (n, v) :: outputs t'
  | _ :: t' => outputs t'
  end.

(** The last value published under [name]. *)
Fixpoint lookup_output (name : string) (o : list (string * option string))
  : option (option string) :=
  match o with
  | [] => None
  | (n, v) :: o' =>
      match lookup_output name o' with
      | Some v' => Some v'
      | None => if String.eqb n name then Some v else None
      end
  end.

Definition output {A} (name : string) (m : M A) : option (option string) :=
  lookup_output name (outputs (fst m)).

(** The run is fatal: [setFailed] was called, or the promise of [run] was
    rejected by an uncaught exception. *)
Definition fatal {A} (m : M A) : bool :=
  existsb is_setFailed (fst m)
  || match snd m with Throw _ => true | _ => false end.

(** ** Sample worlds *)

Definition err (st : option Z) (msg : string) : Thrown :=
  ThrownObject
    {| obj_instanceofError := true; obj_message := msg;
       obj_response_status := st; obj_body_message := None |}.

Definition token : RegistryToken :=
  {| endpoint := "https://registry.example.com";
     username := "AWS"; password := "secret" |}.

(** Everything exists and every call succeeds. *)
Definition remote_ok : Remote :=
  {| listApplications := fun _ => Fulfilled tt;
     getEcrLoginCredentials := fun _ _ => Fulfilled (Some token);
     getApplication := fun _ _ => Fulfilled tt;
     getEnvironment := fun _ _ _ => Fulfilled tt;
     exec_docker := fun _ => Fulfilled tt |}.

Definition inputs0 : Inputs :=
  {| quant_api_key := "key"; quant_organization := "org";
     quant_application := ""; master_branch_override := "";
     environment_name_override := ""; base_url := "";
     skip_docker_login := "" |}.

Definition env_of (ref repo : string) : ProcessEnv :=
  {| GITHUB_REF := Some ref; GITHUB_REPOSITORY := Some repo;
     GITHUB_EVENT_NAME := Some "push" |}.

(** ** The two slugs, character by character, in the words of the spec *)

(** Environment names: every character outside [[a-zA-Z0-9]] becomes ["-"],
    the others are lower-cased. *)
Definition spec_envChar (c : ascii) : ascii :=
  if JS.isAlnum c then JS.lowerChar c else "-"%char.

(** Image suffixes: ["."] survives, every other character outside
    [[a-zA-Z0-9]] becomes ["-"], the others are lower-cased. *)
Definition spec_imageChar (c : ascii) : ascii :=
  if Ascii.eqb c "." then "."%char
  else if JS.isAlnum c then JS.lowerChar c else "-"%char.

Definition dotToDash (c : ascii) : ascii :=
  if Ascii.eqb c "." then "-"%char else c.

(** [s] holds the code unit [c]. *)
Fixpoint contains (c : ascii) (s : string) : bool :=
  match s with
  | EmptyString => false
  | String d s' => Ascii.eqb d c || contains c s'
  end.

(** The ref descriptors [classifyRef] builds. *)
Definition tagInfo (name : string) : RefInfo :=
  {| branch := name; isTagRef := true; isPrRef := false; prId := None |}.

Definition branchInfo (name : string) : RefInfo :=
  {| branch := name; isTagRef := false; isPrRef := false; prId := None |}.

Definition prInfo (id : string) : RefInfo :=
  {| branch := "pr-" ++ id; isTagRef := false; isPrRef := true;
     prId := Some id |}.


(** Inputs with an environment-name override, all else as in [inputs0]. *)
Definition inputs_env (override : string) : Inputs :=
  {| quant_api_key := "key"; quant_organization := "org";
     quant_application := ""; master_branch_override := "";
     environment_name_override := override; base_url := "";
     skip_docker_login := "" |}.

(** ** Vocabulary for the statements about [run] *)

Definition is_log (e : Event) : bool :=
  match e with Log _ _ => true | _ => false end.

(** [setFailed] occurs in the trace. *)
Definition failed (t : list Event) : bool := existsb is_setFailed t.

Definition fulfilled {A} (r : Response A) : bool :=
  match r with Fulfilled _ => true | Rejected _ => false end.

(** The call was rejected with one of the statuses 422, 401, 403. *)
Definition rejectedAuth {A} (r : Response A) : bool :=
  match r with
  | Fulfilled _ => false
  | Rejected e => isAuthStatus (response_status e)
  end.

(** The call was rejected with [null] or [undefined]. *)
Definition rejectedNullish {A} (r : Response A) : bool :=
  match r with
  | Fulfilled _ => false
  | Rejected e => nullish e
  end.

(** The handler of the call ends the run: the rejection carries one of the
    statuses 422, 401, 403, or is [null] or [undefined], on which the
    handler itself throws. *)
Definition rejectedFatal {A} (r : Response A) : bool :=
  rejectedAuth r || rejectedNullish r.

(** None of the three guarded validation calls ends the run: the
    organization listing succeeds, and neither the credential probe nor the
    application lookup is rejected with 422, 401 or 403, or with [null] or
    [undefined]. *)
Definition validationPasses (remote : Remote) (organization : string)
    (application : option string) : bool :=
  fulfilled (listApplications remote organization)
  && negb (rejectedFatal (getEcrLoginCredentials remote 0 organization))
  && negb (rejectedFatal (getApplication remote organization application)).

(** The credentials the login stage retrieves ([hasCredentials]). *)
Definition credentials (remote : Remote) (organization : string)
  : option RegistryToken :=
  match getEcrLoginCredentials remote 1 organization with
  | Fulfilled (Some data) =>
      if JS.truthy (password data) && JS.truthy (endpoint data)
         && JS.truthy (username data)
      then Some data else None
  | _ => None
  end.

Definition loginArgs (d : RegistryToken) : list string :=
  ["login"; endpoint d; "--username"; username d; "--password"; password d].

(** The login command is run and fails. *)
Definition loginCommandFails (remote : Remote) (organization : string) : bool :=
  match credentials remote organization with
  | Some d => negb (fulfilled (exec_docker remote (loginArgs d)))
  | None => false
  end.

Definition skipDockerLogin (inp : Inputs) : bool :=
  String.eqb (skip_docker_login inp) "true".

(** The outputs of "Set outputs", in order. *)
Definition published (t : Target) (projectExists environmentExists : bool)
  : list (string * option string) :=
  [("project_exists", Some (JS.show_bool projectExists));
   ("environment_exists", Some (JS.show_bool environmentExists));
   ("quant_application", applicationName t);
   ("environment_name", Some (environmentName t));
   ("is_production", Some (JS.show_bool (isProduction t)));
   ("image_suffix", Some (imageSuffix t));
   ("image_suffix_clean", Some (stripLeadingDash (imageSuffix t)))].

(** The four remote calls of a validation that passes. *)
Definition validationCalls (organization : string)
    (application : option string) (environment : string) : list Event :=
  [Api (ListApplications organization);
   Api (GetEcrLoginCredentials organization);
   Api (GetApplication organization application);
   Api (GetEnvironment organization application environment)].

(** The required inputs and the GitHub context are there, and the ref is
    classified as [r]: [run] gets past its input stage. *)
Definition ready (inp : Inputs) (env : ProcessEnv) (ref repo : string)
    (r : RefInfo) : Prop :=
  JS.truthy (quant_api_key inp) = true /\
  JS.truthy (quant_organization inp) = true /\
  GITHUB_REF env = Some ref /\
  GITHUB_REPOSITORY env = Some repo /\
  JS.truthy repo = true /\
  classifyRef ref = ret r.

(** [m] goes through a prefix [pre] of events and then behaves as [k]. *)
Definition continuesAs {A} (m : M A) (pre : list Event) (k : M A) : Prop :=
  m = ((pre ++ fst k)%list, snd k).

(** The message [classifyRef] fails the run with on a ref it cannot parse. *)
Definition refError (ref : string) : string :=
  if isPullRequest ref then
    "Could not extract pull request ID from ref: " ++ ref
  else "Unknown ref format: " ++ ref.

(** ** More sample worlds *)

Definition inputs_skip : Inputs :=
  {| quant_api_key := "key"; quant_organization := "org";
     quant_application := ""; master_branch_override := "";
     environment_name_override := ""; base_url := "";
     skip_docker_login := "true" |}.

(** The environment lookup is rejected with 401. *)
Definition remote_env_unauthorized : Remote :=
  {| listApplications := fun _ => Fulfilled tt;
     getEcrLoginCredentials := fun _ _ => Fulfilled (Some token);
     getApplication := fun _ _ => Fulfilled tt;
     getEnvironment := fun _ _ _ => Rejected (err (Some 401%Z) "Unauthorized");
     exec_docker := fun _ => Fulfilled tt |}.

(** The application lookup is rejected with 401. *)
Definition remote_app_unauthorized : Remote :=
  {| listApplications := fun _ => Fulfilled tt;
     getEcrLoginCredentials := fun _ _ => Fulfilled (Some token);
     getApplication := fun _ _ => Rejected (err (Some 401%Z) "Unauthorized");
     getEnvironment := fun _ _ _ => Fulfilled tt;
     exec_docker := fun _ => Fulfilled tt |}.

(** Neither the application nor the environment is found. *)
Definition remote_not_found : Remote :=
  {| listApplications := fun _ => Fulfilled tt;
     getEcrLoginCredentials := fun _ _ => Fulfilled (Some token);
     getApplication := fun _ _ => Rejected (err (Some 404%Z) "Not Found");
     getEnvironment := fun _ _ _ => Rejected (err (Some 404%Z) "Not Found");
     exec_docker := fun _ => Fulfilled tt |}.

(** The organization listing is rejected. *)
Definition remote_org_down : Remote :=
  {| listApplications := fun _ => Rejected (err (Some 500%Z) "Server Error");
     getEcrLoginCredentials := fun _ _ => Fulfilled (Some token);
     getApplication := fun _ _ => Fulfilled tt;
     getEnvironment := fun _ _ _ => Fulfilled tt;
     exec_docker := fun _ => Fulfilled tt |}.

(** The login command exits with an error. *)
Definition remote_login_fails : Remote :=
  {| listApplications := fun _ => Fulfilled tt;
     getEcrLoginCredentials := fun _ _ => Fulfilled (Some token);
     getApplication := fun _ _ => Fulfilled tt;
     getEnvironment := fun _ _ _ => Fulfilled tt;
     exec_docker := fun _ =>
       Rejected (err None "The process 'docker' failed with exit code 1") |}.

(** No registry credentials can be retrieved. *)
Definition remote_no_credentials : Remote :=
  {| listApplications := fun _ => Fulfilled tt;
     getEcrLoginCredentials := fun _ _ => Rejected (err (Some 404%Z) "Not Found");
     getApplication := fun _ _ => Fulfilled tt;
     getEnvironment := fun _ _ _ => Fulfilled tt;
     exec_docker := fun _ => Fulfilled tt |}.

(** ** Character classes of the derived names *)

(** [[a-z0-9-]]: what a derived environment name is made of. *)
Definition isEnvChar (c : ascii) : bool :=
  JS.isLower c || JS.isDigit c || Ascii.eqb c "-".

(** [[a-z0-9.-]]: what a derived image suffix of a branch is made of. *)
Definition isSuffixChar (c : ascii) : bool :=
  isEnvChar c || Ascii.eqb c ".".

(** ** More vocabulary for the statements about [run] *)

Definition is_error_log (e : Event) : bool :=
  match e with Log Error _ => true | _ => false end.

(** The generic handler of validation runs: the organization listing
    succeeded, and the credential probe, or after a probe that does not end
    the run the application lookup, was rejected with [null] or
    [undefined]. *)
Definition genericHandlerRuns (remote : Remote) (organization : string)
    (application : option string) : bool :=
  fulfilled (listApplications remote organization)
  && (rejectedNullish (getEcrLoginCredentials remote 0 organization)
      || (negb (rejectedFatal (getEcrLoginCredentials remote 0 organization))
          && rejectedNullish
               (getApplication remote organization application))).

(** [l] is an initial segment of [full]. *)
Definition prefixOf {A} (l full : list A) : Prop :=
  exists rest, full = (l ++ rest)%list.

(** The completion is an uncaught exception. *)
Definition throws {A} (m : M A) : bool :=
  match snd m with Throw _ => true | _ => false end.

(** All the remote calls a run can make, in the order it makes them. *)
Definition allCalls (organization : string) (application : option string)
    (environment : string) : list Event :=
  (validationCalls organization application environment
   ++ [Api (GetEcrLoginCredentials organization)])%list.

(** The name of the first required input that is missing. *)
Definition missingInput (inp : Inputs) : string :=
  if JS.truthy (quant_api_key inp) then "quant_organization"
  else "quant_api_key".

(** Inputs without any required value. *)
Definition inputs_missing : Inputs :=
  {| quant_api_key := ""; quant_organization := "";
     quant_application := ""; master_branch_override := "";
     environment_name_override := ""; base_url := "";
     skip_docker_login := "" |}.

(** The organization exists, but the credential probe is rejected with 403. *)
Definition remote_probe_forbidden : Remote :=
  {| listApplications := fun _ => Fulfilled tt;
     getEcrLoginCredentials := fun _ _ => Rejected (err (Some 403%Z) "Forbidden");
     getApplication := fun _ _ => Fulfilled tt;
     getEnvironment := fun _ _ _ => Fulfilled tt;
     exec_docker := fun _ => Fulfilled tt |}.

(** The organization exists, but the credential probe is rejected with
    [null]. *)
Definition remote_probe_null : Remote :=
  {| listApplications := fun _ => Fulfilled tt;
     getEcrLoginCredentials := fun _ _ => Rejected ThrownNull;
     getApplication := fun _ _ => Fulfilled tt;
     getEnvironment := fun _ _ _ => Fulfilled tt;
     exec_docker := fun _ => Fulfilled tt |}.

(** The organization listing answers 404. *)
Definition remote_org_not_found : Remote :=
  {| listApplications := fun _ => Rejected (err (Some 404%Z) "Not Found");
     getEcrLoginCredentials := fun _ _ => Fulfilled (Some token);
     getApplication := fun _ _ => Fulfilled tt;
     getEnvironment := fun _ _ _ => Fulfilled tt;
     exec_docker := fun _ => Fulfilled tt |}.

(** [stripped_endpoint], when credentials were retrieved. *)
Definition endpointOutput (c : option RegistryToken)
  : list (string * option string) :=
  match c with
  | Some d => [("stripped_endpoint", Some (stripProtocol (endpoint d)))]
  | None => []
  end.

(** * The earlier variant of the action: [src/src/index.ts]

    The same program before pull-request refs, [skip_docker_login] and
    [image_suffix_clean]; line numbers are those of [src/src/index.ts].
    [isProductionBranch] (l. 27-30) and [stripProtocol] (l. 76-78) are the
    definitions above, unchanged. *)

Module IndexTs.

(** [[a-zA-Z0-9.-]] *)
Definition isAlnumDotDash (c : ascii) : bool :=
  JS.isAlnum c || Ascii.eqb c "." || Ascii.eqb c "-".

(** [generateEnvironmentName] (l. 35-54). *)
Definition generateEnvironmentName
    (branch environmentNameOverride masterBranchOverride : string) : string :=
  if JS.truthy environmentNameOverride then environmentNameOverride
  else if isProductionBranch branch masterBranchOverride then "production"
  else if String.eqb branch "develop" then "develop"
  else if JS.startsWith branch "feature/" then "feature"
  else JS.toLowerCase (JS.replaceOutside isAlnumDotDash branch).

(** [generateImageSuffix] (l. 59-71). *)
Definition generateImageSuffix (branch masterBranchOverride : string)
  : string :=
  if isProductionBranch branch masterBranchOverride then "-latest"
  else if String.eqb branch "develop" then "-develop"
  else if JS.startsWith branch "feature/" then
    "-" ++ JS.toLowerCase (JS.replaceOutside isAlnumDotDash branch)
  else
    "-" ++ JS.toLowerCase (JS.replaceOutside isAlnumDotDash branch).

(** [dockerLogin] (l. 83-100). *)
Definition dockerLogin (remote : Remote) (endpoint username password : string)
  : M unit :=
  try_catch
    (info ("Logging into Docker registry: " ++ endpoint) ;;
     let args := ["login"; endpoint; "--username"; username;
                  "--password"; password] in
     match exec_docker remote args with
     | Fulfilled _ => ([Exec "docker" args], Normal tt)
     | Rejected e => ([Exec "docker" args], Throw e)
     end ;;
     info "✅ Docker login successful")
    (fun err =>
       error "❌ Docker login failed" ;;
       throw err).

(** "Determine branch or tag" (l. 132-144): the name and [isTag]. *)
Definition classifyRef (githubRef : string) : M (string * bool) :=
  if JS.startsWith githubRef "refs/tags/" then
    ret (JS.replaceFirst "refs/tags/" "" githubRef, true)
  else if JS.startsWith githubRef "refs/heads/" then
    ret (JS.replaceFirst "refs/heads/" "" githubRef, false)
  else
    setFailed ("Unknown ref format: " ++ githubRef) ;;
    returnM.

(** "Determine application name" (l. 146-155). *)
Definition determineApplicationName (inp : Inputs) (githubRepository : string)
  : M (option string) :=
  if JS.truthy (quant_application inp) then
    info ("Using provided application name: " ++ quant_application inp) ;;
    ret (Some (quant_application inp))
  else
    let applicationName := nth_error (JS.split "/" githubRepository) 1 in
    info ("Using repository name as application name: "
          ++ JS.show applicationName) ;;
    ret applicationName.

(** "Determine environment and production status" (l. 157-160). *)
Definition resolve (inp : Inputs) (applicationName : option string)
    (branch : string) : Target :=
  {| applicationName := applicationName;
     environmentName :=
       generateEnvironmentName branch (environment_name_override inp)
         (master_branch_override inp);
     isProduction := isProductionBranch branch (master_branch_override inp);
     imageSuffix := generateImageSuffix branch (master_branch_override inp) |}.

(** "Validate organization and API key by checking if project exists"
    (l. 175-221): yields [(projectExists, environmentExists)]. *)
Definition validate (remote : Remote) (organization environmentName : string)
  : M (bool * bool) :=
  try_catch
    (info ("Validating organization and API key for " ++ organization ++ "...") ;;
     registryToken <- await (GetEcrLoginCredentials organization)
                             (getEcrLoginCredentials remote 0 organization) ;;
     projectExists <-
       match registryToken with
       | Some body =>
           if JS.truthy (password body) then
             info "✅ Organization and API key validation successful" ;;
             ret true
           else
             setFailed "No Quant Cloud Image Registry credentials found - organization may not exist or API key may be invalid" ;;
             returnM
       | None =>
           setFailed "No Quant Cloud Image Registry credentials found - organization may not exist or API key may be invalid" ;;
           returnM
       end ;;
     environmentExists <-
       try_catch
         (info ("✅ Environment " ++ environmentName ++ " validation successful") ;;
          ret true)
         (fun envError =>
            warning ("Environment " ++ environmentName
                     ++ " may not exist yet - this is normal for new projects") ;;
            ret false) ;;
     ret (projectExists, environmentExists))
    (fun err =>
       error "❌ Organization and API key validation failed" ;;
       (if instanceofError err then
          match body_message err with
          | Some m =>
              if JS.truthy m then
                if String.eqb m "Unable to find matching result" then
                  setFailed "Either the organization does not exist or you do not have access to it"
                else setFailed m
              else setFailed (message err)
          | None => setFailed (message err)
          end
        else setFailed "An unknown error occurred during validation") ;;
       returnM).

(** "Get Quant Cloud Image Registry credentials and login to Docker"
    (l. 223-274). *)
Definition loginAndPublish (remote : Remote) (organization : string)
    (t : Target) (projectExists environmentExists : bool) : M unit :=
  try_catch
    (info "Getting Quant Cloud Image Registry login credentials..." ;;
     registryToken <- await (GetEcrLoginCredentials organization)
                             (getEcrLoginCredentials remote 1 organization) ;;
     body <-
       match registryToken with
       | Some body =>
           if negb (JS.truthy (password body)) then
             setFailed "Failed to retrieve Quant Cloud Image Registry credentials" ;;
             returnM
           else ret body
       | None =>
           setFailed "Failed to retrieve Quant Cloud Image Registry credentials" ;;
           returnM
       end ;;
     (if negb (JS.truthy (endpoint body)) then
        setFailed "No Quant Cloud Image Registry endpoint found" ;;
        returnM
      else ret tt) ;;
     let strippedEndpoint := stripProtocol (endpoint body) in
     info "✅ Quant Cloud Image Registry login credentials retrieved successfully" ;;
     (if negb (JS.truthy (username body)) then
        setFailed "No Quant Cloud Image Registry username found" ;;
        returnM
      else ret tt) ;;
     dockerLogin remote (endpoint body) (username body) (password body) ;;
     setOutput "project_exists" (Some (JS.show_bool projectExists)) ;;
     setOutput "environment_exists" (Some (JS.show_bool environmentExists)) ;;
     setOutput "quant_application" (applicationName t) ;;
     setOutput "environment_name" (Some (environmentName t)) ;;
     setOutput "is_production" (Some (JS.show_bool (isProduction t))) ;;
     setOutput "stripped_endpoint" (Some strippedEndpoint) ;;
     info "🎉 Quant Cloud initialization completed successfully!" ;;
     info ("Application: " ++ JS.show (applicationName t)) ;;
     info ("Environment: " ++ environmentName t) ;;
     info ("Production: " ++ JS.show_bool (isProduction t)) ;;
     info ("Registry Endpoint: " ++ endpoint body) ;;
     info ("Stripped Endpoint: " ++ strippedEndpoint) ;;
     info ("Image Suffix: " ++ imageSuffix t) ;;
     info "✅ Docker registry login completed")
    (fun err =>
       error "Failed to complete initialization" ;;
       if instanceofError err then setFailed (message err)
       else setFailed "An unknown error occurred during initialization").

(** The rest of [run] once the ref is classified (l. 146-274). *)
Definition afterClassify (inp : Inputs) (remote : Remote)
    (githubRepository branch : string) (isTag : bool) : M unit :=
  applicationName <- determineApplicationName inp githubRepository ;;
  let t := resolve inp applicationName branch in
  info ("Branch: " ++ branch) ;;
  info ("Is tag: " ++ JS.show_bool isTag) ;;
  info ("Environment: " ++ environmentName t) ;;
  info ("Is production: " ++ JS.show_bool (isProduction t)) ;;
  info ("Image suffix: " ++ imageSuffix t) ;;
  v <- validate remote (quant_organization inp) (environmentName t) ;;
  let '(projectExists, environmentExists) := v in
  loginAndPublish remote (quant_organization inp) t
    projectExists environmentExists.

(** [run] (l. 106-275). *)
Definition run (inp : Inputs) (env : ProcessEnv) (remote : Remote) : M unit :=
  apiKey <- getInput_required "quant_api_key" (quant_api_key inp) ;;
  organization <- getInput_required "quant_organization" (quant_organization inp) ;;
  baseUrl <-
    (if negb (JS.truthy (base_url inp)) then
       ret "https://dashboard.quantcdn.io/api/v3"
     else
       warning ("Using non-default base URL: " ++ base_url inp) ;;
       ret (base_url inp)) ;;
  info ("GitHub Context - Ref: " ++ JS.show (GITHUB_REF env)
        ++ ", Repository: " ++ JS.show (GITHUB_REPOSITORY env)
        ++ ", Event: " ++ JS.show (GITHUB_EVENT_NAME env)) ;;
  match GITHUB_REF env, GITHUB_REPOSITORY env with
  | Some (String c1 r1), Some (String c2 r2) =>
      let githubRef := String c1 r1 in
      let githubRepository := String c2 r2 in
      r <- classifyRef githubRef ;;
      let '(branch, isTag) := r in
      afterClassify inp remote githubRepository branch isTag
  | _, _ =>
      setFailed "GitHub context not available. This action must run in a GitHub Actions workflow." ;;
      returnM
  end.

(** The outputs of "Set outputs" (l. 249-255), in order. *)
Definition published (t : Target) (projectExists environmentExists : bool)
    (strippedEndpoint : string) : list (string * option string) :=
  [("project_exists", Some (JS.show_bool projectExists));
   ("environment_exists", Some (JS.show_bool environmentExists));
   ("quant_application", applicationName t);
   ("environment_name", Some (environmentName t));
   ("is_production", Some (JS.show_bool (isProduction t)));
   ("stripped_endpoint", Some strippedEndpoint)].

End IndexTs.

(** The application name both variants derive. *)
Definition derivedApplicationName (inp : Inputs) (repo : string)
  : option string :=
  if JS.truthy (quant_application inp) then Some (quant_application inp)
  else nth_error (JS.split "/" repo) 1.

(** What one observes of a finished run, its log lines left aside. *)
Definition observations (m : M unit)
  : bool * list string * list (string * option string)
    * list Event * list Event :=
  (fatal m, failures (fst m), outputs (fst m), api_calls m, execs m).

(** * Properties *)

(** ** Sanity checks on concrete inputs *)

Example ex_env_feature :
  generateEnvironmentName "feature/Login.Fix" "" "" false false None
  = "feature-login-fix".
Proof. reflexivity. Qed.

Example ex_suffix_feature :
  generateImageSuffix "feature/Login.Fix" "" false false None
  = "-feature-login.fix".
Proof. reflexivity. Qed.

Example ex_pr_id : extractPullRequestId "refs/pull/42/merge" = Some "42".
Proof. reflexivity. Qed.

Example ex_pr_id_none : extractPullRequestId "refs/pull/abc/merge" = None.
Proof. reflexivity. Qed.

Example ex_split : JS.split "/" "owner/repo/x" = ["owner"; "repo"; "x"].
Proof. reflexivity. Qed.

Example ex_run_main :
  outputs (fst (run inputs0 (env_of "refs/heads/main" "owner/repo") remote_ok))
  = [("stripped_endpoint", Some "registry.example.com");
     ("project_exists", Some "true");
     ("environment_exists", Some "true");
     ("quant_application", Some "repo");
     ("environment_name", Some "production");
     ("is_production", Some "true");
     ("image_suffix", Some "-latest");
     ("image_suffix_clean", Some "latest")].
Proof. reflexivity. Qed.


(** ** Strings *)

Ltac ascii_cases c :=
  destruct c as [[] [] [] [] [] [] [] []]; vm_compute; try reflexivity.

Lemma startsWith_decompose (p s : string) :
  JS.startsWith s p = true -> s = p ++ JS.drop (String.length p) s.
Proof.
  unfold JS.startsWith. revert s.
  induction p as [|a p IH]; intros s H.
  - reflexivity.
  - destruct s as [|b s]; simpl in H; [discriminate|].
    destruct (ascii_dec a b) as [->|]; [|discriminate].
    simpl. f_equal. now apply IH.
Qed.

Lemma startsWith_append (p s : string) : JS.startsWith (p ++ s) p = true.
Proof.
  unfold JS.startsWith.
  induction p as [|a p IH]; simpl.
  - destruct s; reflexivity.
  - destruct (ascii_dec a a); [exact IH | congruence].
Qed.

Lemma drop_append (p s : string) : JS.drop (String.length p) (p ++ s) = s.
Proof. induction p; simpl; auto. Qed.

Lemma replaceFirst_startsWith (p rep s : string) :
  JS.startsWith s p = true ->
  JS.replaceFirst p rep s = rep ++ JS.drop (String.length p) s.
Proof.
  unfold JS.startsWith. intros H.
  destruct s; simpl in *; rewrite H; reflexivity.
Qed.

Lemma map_map (f g : ascii -> ascii) (s : string) :
  JS.map f (JS.map g s) = JS.map (fun c => f (g c)) s.
Proof. induction s; simpl; congruence. Qed.

Lemma map_ext (f g : ascii -> ascii) (s : string) :
  (forall c, f c = g c) -> JS.map f s = JS.map g s.
Proof. intros E. induction s; simpl; congruence. Qed.

Lemma contains_map_false (f : ascii -> ascii) (d : ascii) (s : string) :
  (forall c, Ascii.eqb (f c) d = false) -> contains d (JS.map f s) = false.
Proof.
  intros E. induction s; simpl; [reflexivity|].
  now rewrite E, IHs.
Qed.

(** What [toLowerCase] is applied to: code units of the class, or ["-"]. *)
Lemma replaceOutside_class (keep : ascii -> bool) (s : string) :
  JS.forallb (fun c => keep c || Ascii.eqb c "-") (JS.replaceOutside keep s)
  = true.
Proof.
  unfold JS.replaceOutside.
  induction s as [|c s IH]; simpl; [reflexivity|].
  rewrite IH, andb_true_r.
  destruct (keep c) eqn:Hk; [now rewrite Hk | apply orb_true_r].
Qed.

Lemma envChar_ok (c : ascii) :
  JS.lowerChar (if JS.isAlnum c then c else "-"%char) = spec_envChar c.
Proof. ascii_cases c. Qed.

Lemma imageChar_ok (c : ascii) :
  JS.lowerChar (if JS.isAlnumDot c then c else "-"%char) = spec_imageChar c.
Proof. ascii_cases c. Qed.

Lemma envChar_no_dot (c : ascii) : Ascii.eqb (spec_envChar c) "." = false.
Proof. ascii_cases c. Qed.

Lemma envChar_of_imageChar (c : ascii) :
  spec_envChar c = dotToDash (spec_imageChar c).
Proof. ascii_cases c. Qed.

Lemma imageChar_dot (c : ascii) :
  Ascii.eqb (spec_imageChar c) "." = Ascii.eqb c ".".
Proof. ascii_cases c. Qed.

Lemma envSlug_spec (s : string) : envSlug s = JS.map spec_envChar s.
Proof.
  unfold envSlug, JS.toLowerCase, JS.replaceOutside.
  rewrite map_map. apply map_ext, envChar_ok.
Qed.

Lemma imageSlug_spec (s : string) : imageSlug s = JS.map spec_imageChar s.
Proof.
  unfold imageSlug, JS.toLowerCase, JS.replaceOutside.
  rewrite map_map. apply map_ext, imageChar_ok.
Qed.

Lemma contains_imageSlug_dot (s : string) :
  contains "." (imageSlug s) = contains "." s.
Proof.
  rewrite imageSlug_spec.
  induction s; simpl; [reflexivity|].
  now rewrite imageChar_dot, IHs.
Qed.

(** ** Ref classification *)

Lemma classifyRef_tag (ref : string) :
  isTag ref = true -> classifyRef ref = ret (tagInfo (JS.drop 10 ref)).
Proof.
  unfold isTag, classifyRef. intros H. rewrite H.
  rewrite (replaceFirst_startsWith _ _ _ H). reflexivity.
Qed.

Lemma classifyRef_branch (name : string) :
  classifyRef ("refs/heads/" ++ name) = ret (branchInfo name).
Proof.
  assert (H1 : JS.startsWith ("refs/heads/" ++ name) "refs/tags/" = false)
    by reflexivity.
  assert (H2 : JS.startsWith ("refs/heads/" ++ name) "refs/pull/" = false)
    by reflexivity.
  pose proof (startsWith_append "refs/heads/" name) as H3.
  unfold classifyRef.
  rewrite H1, H2, H3, (replaceFirst_startsWith _ _ _ H3), drop_append.
  reflexivity.
Qed.

Lemma classifyRef_isTagRef (ref : string) (r : RefInfo) :
  classifyRef ref = ret r -> isTagRef r = isTag ref.
Proof.
  unfold classifyRef, isTag, ret.
  destruct (JS.startsWith ref "refs/tags/").
  - intros [= <-]. reflexivity.
  - destruct (JS.startsWith ref "refs/pull/").
    + destruct (JS.truthy_opt (extractPullRequestId ref)); simpl.
      * intros [= <-]. reflexivity.
      * discriminate.
    + destruct (JS.startsWith ref "refs/heads/"); simpl.
      * intros [= <-]. reflexivity.
      * discriminate.
Qed.

(** ** Resolution of tags *)

(** C1, as stated, fails: with an environment-name override the suffix of a
    tag ref is built from the override, not from the tag name.  On the tag
    ref [refs/tags/v1.2.0] with override [qa] the suffix is [-qa]. *)
Lemma C1_counterexample :
  isTag "refs/tags/v1.2.0" = true /\
  classifyRef "refs/tags/v1.2.0" = ret (tagInfo "v1.2.0") /\
  imageSuffix (resolve (inputs_env "qa") "owner/repo" (tagInfo "v1.2.0"))
  = "-qa" /\
  imageSuffix (resolve (inputs_env "qa") "owner/repo" (tagInfo "v1.2.0"))
  <> "-" ++ "v1.2.0" /\
  output "image_suffix"
    (run (inputs_env "qa") (env_of "refs/tags/v1.2.0" "owner/repo") remote_ok)
  = Some (Some "-qa").
Proof.
  repeat split; try reflexivity.
  vm_compute. discriminate.
Qed.

(** C1 (amended): every ref that begins with [refs/tags/] is classified as
    a tag whose name is the remainder of the ref; its [isProduction] flag is
    true whatever the overrides; and when no environment-name override is
    supplied its environment name is [production] and its image suffix is
    ["-"] followed by the tag name verbatim. *)
Theorem C1_tag_resolution (inp : Inputs) (repo ref : string) :
  isTag ref = true ->
  let r := tagInfo (JS.drop 10 ref) in
  let t := resolve inp repo r in
  ref = "refs/tags/" ++ branch r /\
  classifyRef ref = ret r /\
  isProduction t = true /\
  (JS.truthy (environment_name_override inp) = false ->
   environmentName t = "production" /\
   imageSuffix t = "-" ++ branch r).
Proof.
  intros Htag r t.
  split; [exact (startsWith_decompose _ _ Htag)|].
  split; [exact (classifyRef_tag _ Htag)|].
  subst t r. unfold resolve, generateEnvironmentName, generateImageSuffix.
  simpl.
  split.
  - destruct (JS.truthy (environment_name_override inp));
      [reflexivity | apply orb_true_r].
  - intros ->. split; reflexivity.
Qed.

Lemma C1_tag_resolution_witness :
  isTag "refs/tags/v1.2.0" = true /\
  JS.truthy (environment_name_override inputs0) = false /\
  classifyRef "refs/tags/v1.2.0" = ret (tagInfo "v1.2.0") /\
  isProduction (resolve inputs0 "owner/repo" (tagInfo "v1.2.0")) = true /\
  environmentName (resolve inputs0 "owner/repo" (tagInfo "v1.2.0"))
  = "production" /\
  imageSuffix (resolve inputs0 "owner/repo" (tagInfo "v1.2.0")) = "-v1.2.0".
Proof.
  destruct (C1_tag_resolution inputs0 "owner/repo" "refs/tags/v1.2.0" eq_refl)
    as (_ & Hc & Hp & Hrest).
  destruct (Hrest eq_refl) as (He & Hs).
  exact (conj eq_refl (conj eq_refl (conj Hc (conj Hp (conj He Hs))))).
Defined.

(** ** Resolution under an environment-name override *)

(** C2: when [environment_name_override] is present, for every ref the run
    classifies, the environment name is the override verbatim, [isProduction]
    holds exactly when the ref is a tag, and the image suffix is ["-"]
    followed by the override in which every character outside [a-zA-Z0-9]
    is replaced by ["-"] and the rest lower-cased. *)
Theorem C2_environment_override
    (inp : Inputs) (repo ref : string) (r : RefInfo) :
  JS.truthy (environment_name_override inp) = true ->
  classifyRef ref = ret r ->
  let t := resolve inp repo r in
  environmentName t = environment_name_override inp /\
  (isProduction t = true <-> isTag ref = true) /\
  imageSuffix t = "-" ++ envSlug (environment_name_override inp) /\
  envSlug (environment_name_override inp)
  = JS.map spec_envChar (environment_name_override inp).
Proof.
  intros Ho Hc t. subst t.
  unfold resolve, generateEnvironmentName. simpl. rewrite Ho.
  rewrite (classifyRef_isTagRef _ _ Hc).
  repeat split; auto using envSlug_spec.
Qed.

Lemma C2_environment_override_witness :
  JS.truthy (environment_name_override (inputs_env "qa.env")) = true /\
  classifyRef "refs/heads/main" = ret (branchInfo "main") /\
  isTag "refs/heads/main" = false /\
  isProduction (resolve (inputs_env "qa.env") "owner/repo" (branchInfo "main"))
  = false /\
  environmentName (resolve (inputs_env "qa.env") "owner/repo" (branchInfo "main"))
  = "qa.env" /\
  imageSuffix (resolve (inputs_env "qa.env") "owner/repo" (branchInfo "main"))
  = "-qa-env".
Proof.
  destruct (C2_environment_override (inputs_env "qa.env") "owner/repo"
              "refs/heads/main" (branchInfo "main") eq_refl eq_refl)
    as (He & _ & Hs & _).
  exact (conj eq_refl (conj eq_refl (conj eq_refl
           (conj eq_refl (conj He Hs))))).
Defined.

(** ** The two slugs *)

(** C3: for a branch ref whose name is neither a production branch nor
    [develop], without environment-name override, the environment name is
    the branch name with every character outside [a-zA-Z0-9], ["."]
    included, replaced by ["-"] and lower-cased, so it holds no ["."]; the
    image suffix is ["-"] followed by the branch name where ["."] is kept,
    the other non-alphanumerics become ["-"] and the rest is lower-cased;
    the two differ exactly on ["."]. *)
Theorem C3_slugs_differ_on_dot (inp : Inputs) (repo name : string) :
  JS.truthy (environment_name_override inp) = false ->
  isProductionBranch name (master_branch_override inp) = false ->
  String.eqb name "develop" = false ->
  let t := resolve inp repo (branchInfo name) in
  classifyRef ("refs/heads/" ++ name) = ret (branchInfo name) /\
  environmentName t = JS.map spec_envChar name /\
  contains "." (environmentName t) = false /\
  imageSuffix t = "-" ++ JS.map spec_imageChar name /\
  contains "." (imageSuffix t) = contains "." name /\
  environmentName t = JS.map dotToDash (stripLeadingDash (imageSuffix t)).
Proof.
  intros Ho Hp Hd t.
  assert (He : environmentName t = JS.map spec_envChar name).
  { subst t. unfold resolve, generateEnvironmentName. simpl.
    rewrite Ho, Hp, Hd. fold (envSlug name).
    destruct (JS.startsWith name "feature/"); apply envSlug_spec. }
  assert (Hs : imageSuffix t = "-" ++ JS.map spec_imageChar name).
  { subst t. unfold resolve, generateImageSuffix. simpl.
    rewrite Ho, Hp, Hd. fold (imageSlug name).
    destruct (JS.startsWith name "feature/");
      rewrite imageSlug_spec; reflexivity. }
  split; [apply classifyRef_branch|].
  split; [exact He|].
  split; [rewrite He; apply contains_map_false, envChar_no_dot|].
  split; [exact Hs|].
  split.
  - rewrite Hs, <- imageSlug_spec. simpl. apply contains_imageSlug_dot.
  - rewrite He, Hs. simpl. rewrite map_map.
    apply map_ext, envChar_of_imageChar.
Qed.

Lemma C3_slugs_differ_on_dot_witness :
  JS.truthy (environment_name_override inputs0) = false /\
  isProductionBranch "release/V1.2" (master_branch_override inputs0) = false /\
  String.eqb "release/V1.2" "develop" = false /\
  environmentName (resolve inputs0 "owner/repo" (branchInfo "release/V1.2"))
  = "release-v1-2" /\
  imageSuffix (resolve inputs0 "owner/repo" (branchInfo "release/V1.2"))
  = "-release-v1.2".
Proof.
  destruct (C3_slugs_differ_on_dot inputs0 "owner/repo" "release/V1.2"
              eq_refl eq_refl eq_refl) as (_ & He & _ & Hs & _).
  exact (conj eq_refl (conj eq_refl (conj eq_refl (conj He Hs)))).
Defined.

(** ** Production branches *)

Lemma isProductionBranch_In (name mbo : string) :
  isProductionBranch name mbo = true <-> In name (productionBranches mbo).
Proof.
  unfold isProductionBranch. rewrite existsb_exists. split.
  - intros (x & Hin & Heq). apply String.eqb_eq in Heq. now subst.
  - intros Hin. exists name. split; [exact Hin | apply String.eqb_refl].
Qed.

(** C5: for a branch ref without environment-name override, [isProduction]
    holds exactly when the branch name is in the production-branch set; that
    set is [main; master] without [master_branch_override] and the override
    alone with it; and then the environment name is [production] and the
    image suffix [-latest]. *)
Theorem C5_production_branches (inp : Inputs) (repo name : string) :
  JS.truthy (environment_name_override inp) = false ->
  let mbo := master_branch_override inp in
  let t := resolve inp repo (branchInfo name) in
  classifyRef ("refs/heads/" ++ name) = ret (branchInfo name) /\
  (isProduction t = true <-> In name (productionBranches mbo)) /\
  (JS.truthy mbo = false -> productionBranches mbo = ["main"; "master"]) /\
  (JS.truthy mbo = true -> productionBranches mbo = [mbo]) /\
  (isProduction t = true ->
   environmentName t = "production" /\ imageSuffix t = "-latest").
Proof.
  intros Ho mbo t.
  assert (Hp : isProduction t = isProductionBranch name mbo).
  { subst t mbo. unfold resolve. simpl. rewrite Ho. apply orb_false_r. }
  split; [apply classifyRef_branch|].
  split; [rewrite Hp; apply isProductionBranch_In|].
  split; [unfold productionBranches; now intros ->|].
  split; [unfold productionBranches; now intros ->|].
  rewrite Hp. intros Hprod. subst t mbo.
  unfold resolve, generateEnvironmentName, generateImageSuffix. simpl.
  rewrite Ho, Hprod. split; reflexivity.
Qed.

Lemma C5_production_branches_witness :
  JS.truthy (environment_name_override inputs0) = false /\
  isProduction (resolve inputs0 "owner/repo" (branchInfo "master")) = true /\
  environmentName (resolve inputs0 "owner/repo" (branchInfo "master"))
  = "production" /\
  imageSuffix (resolve inputs0 "owner/repo" (branchInfo "master")) = "-latest".
Proof.
  destruct (C5_production_branches inputs0 "owner/repo" "master" eq_refl)
    as (_ & Hiff & Hdef & _ & Hrest).
  assert (Hp : isProduction (resolve inputs0 "owner/repo" (branchInfo "master"))
               = true).
  { apply Hiff. rewrite (Hdef eq_refl). right. left. reflexivity. }
  destruct (Hrest Hp) as (He & Hs).
  exact (conj eq_refl (conj Hp (conj He Hs))).
Defined.

(** ** The image suffix always starts with the separator *)

Lemma generateImageSuffix_dash
    (b m : string) (tg pr : bool) (id : option string) :
  exists body, generateImageSuffix b m tg pr id = String "-" body.
Proof.
  unfold generateImageSuffix.
  destruct tg; [eexists; reflexivity|].
  destruct (pr && JS.truthy_opt id); [eexists; reflexivity|].
  destruct (isProductionBranch b m); [eexists; reflexivity|].
  destruct (String.eqb b "develop"); [eexists; reflexivity|].
  destruct (JS.startsWith b "feature/"); eexists; reflexivity.
Qed.

Lemma resolve_suffix_dash (inp : Inputs) (repo : string) (r : RefInfo) :
  exists body, imageSuffix (resolve inp repo r) = String "-" body.
Proof.
  unfold resolve. simpl.
  destruct (JS.truthy (environment_name_override inp)).
  - eexists; reflexivity.
  - apply generateImageSuffix_dash.
Qed.

(** C9: for every ref descriptor (branch, tag or pull request) and every
    combination of overrides, the image suffix is a non-empty string whose
    first character is ["-"]: it is ["-"] followed by a body, on the
    override path as in every case of [generateImageSuffix]. *)
Theorem C9_suffix_starts_with_dash
    (inp : Inputs) (repo : string) (r : RefInfo) :
  (exists body, imageSuffix (resolve inp repo r) = "-" ++ body) /\
  JS.truthy (imageSuffix (resolve inp repo r)) = true /\
  (exists body,
     generateImageSuffix (branch r) (master_branch_override inp)
       (isTagRef r) (isPrRef r) (prId r) = "-" ++ body) /\
  (JS.truthy (environment_name_override inp) = true ->
   imageSuffix (resolve inp repo r)
   = "-" ++ envSlug (environment_name_override inp)).
Proof.
  destruct (resolve_suffix_dash inp repo r) as (body & Hb).
  split; [exists body; exact Hb|].
  split; [rewrite Hb; reflexivity|].
  split; [apply generateImageSuffix_dash|].
  intros Ho. unfold resolve. simpl. rewrite Ho. reflexivity.
Qed.

Lemma C9_suffix_starts_with_dash_witness :
  JS.truthy (environment_name_override (inputs_env "QA env")) = true /\
  imageSuffix (resolve (inputs_env "QA env") "owner/repo" (prInfo "42"))
  = "-qa-env".
Proof.
  destruct (C9_suffix_starts_with_dash (inputs_env "QA env") "owner/repo"
              (prInfo "42")) as (_ & _ & _ & Ho).
  exact (conj eq_refl (Ho eq_refl)).
Defined.

(** ** The monad and the observations *)

Lemma bind_normal {A B} (t : list Event) (a : A) (f : A -> M B) :
  bind (t, Normal a) f = ((t ++ fst (f a))%list, snd (f a)).
Proof. simpl. destruct (f a); reflexivity. Qed.

Lemma bind_ret {A B} (a : A) (f : A -> M B) : bind (ret a) f = f a.
Proof. unfold ret. rewrite bind_normal. destruct (f a); reflexivity. Qed.

Lemma bind_emit {B} (e : Event) (f : unit -> M B) :
  bind (emit e) f = (e :: fst (f tt), snd (f tt)).
Proof. unfold emit. now rewrite bind_normal. Qed.

Lemma bind_assoc {A B C} (m : M A) (f : A -> M B) (g : B -> M C) :
  bind (bind m f) g = bind m (fun x => bind (f x) g).
Proof.
  destruct m as [t [a| |e]]; simpl; try reflexivity.
  destruct (f a) as [t1 [b| |e1]]; simpl; try reflexivity.
  destruct (g b) as [t2 c]. now rewrite app_assoc.
Qed.

Lemma outputs_app (t u : list Event) :
  outputs (t ++ u) = (outputs t ++ outputs u)%list.
Proof.
  induction t as [|e t IH]; simpl; [reflexivity|].
  destruct e; simpl; congruence.
Qed.

Lemma failed_app (t u : list Event) :
  failed (t ++ u) = failed t || failed u.
Proof. apply existsb_app. Qed.

Lemma quiet_observations (t : list Event) :
  forallb is_log t = true ->
  failed t = false /\ outputs t = [] /\
  filter is_api t = [] /\ filter is_exec t = [].
Proof.
  induction t as [|e t IH]; simpl; [auto|].
  destruct e; simpl; try discriminate. exact IH.
Qed.

(** ** The validation stage *)

Ltac split_responses remote :=
  repeat match goal with
  | |- context [listApplications remote ?o] =>
      destruct (listApplications remote o) as [[]|?]
  | |- context [getEcrLoginCredentials remote ?n ?o] =>
      destruct (getEcrLoginCredentials remote n o) as [[?|]|?]
  | |- context [getApplication remote ?o ?a] =>
      destruct (getApplication remote o a) as [[]|?]
  | |- context [getEnvironment remote ?o ?a ?e] =>
      destruct (getEnvironment remote o a e) as [[]|?]
  | |- context [exec_docker remote ?a] =>
      destruct (exec_docker remote a) as [[]|?]
  end.

Ltac split_nullish :=
  repeat match goal with
  | |- context [nullish ?e] => is_var e; destruct e as [| |?]
  end.

Ltac split_tests :=
  repeat match goal with
  | |- context [isAuthStatus ?s] => destruct (isAuthStatus s)
  | |- context [JS.truthy (password ?d)] => destruct (JS.truthy (password d))
  | |- context [JS.truthy (endpoint ?d)] => destruct (JS.truthy (endpoint d))
  | |- context [JS.truthy (username ?d)] => destruct (JS.truthy (username d))
  end.

Lemma validate_passes (remote : Remote) (org : string)
    (app : option string) (envn : string) :
  validationPasses remote org app = true ->
  exists t,
    validate remote org app envn
    = (t, Normal (fulfilled (getApplication remote org app),
                  fulfilled (getEnvironment remote org app envn))) /\
    failed t = false /\ outputs t = [] /\ filter is_exec t = [] /\
    filter is_api t = validationCalls org app envn.
Proof.
  unfold validationPasses, validate, validationCalls, rejectedFatal,
    rejectedAuth, rejectedNullish, responseStatus.
  split_responses remote; simpl; split_nullish; simpl; split_tests; simpl;
    intros H; try discriminate H;
    eexists; repeat split; reflexivity.
Qed.

Lemma validate_fails (remote : Remote) (org : string)
    (app : option string) (envn : string) :
  validationPasses remote org app = false ->
  exists t,
    validate remote org app envn = (t, Return) /\
    failed t = true /\ outputs t = [] /\ filter is_exec t = [].
Proof.
  unfold validationPasses, validate, rejectedFatal, rejectedAuth,
    rejectedNullish, responseStatus.
  split_responses remote; simpl; split_nullish; simpl; split_tests; simpl;
    intros H; try discriminate H;
    eexists; repeat split; reflexivity.
Qed.

(** ** The login stage *)

Lemma login_spec (remote : Remote) (inp : Inputs) (org : string)
    (t : Target) (pe ee : bool) :
  let m := loginAndPublish remote inp org t pe ee in
  api_calls m = [Api (GetEcrLoginCredentials org)] /\
  match credentials remote org with
  | Some d =>
      if skipDockerLogin inp then
        fatal m = false /\ execs m = [] /\
        outputs (fst m)
        = ("stripped_endpoint", Some (stripProtocol (endpoint d)))
            :: published t pe ee
      else if fulfilled (exec_docker remote (loginArgs d)) then
        fatal m = false /\ execs m = [Exec "docker" (loginArgs d)] /\
        outputs (fst m)
        = ("stripped_endpoint", Some (stripProtocol (endpoint d)))
            :: published t pe ee
      else
        fatal m = true /\ execs m = [Exec "docker" (loginArgs d)] /\
        outputs (fst m) = []
  | None =>
      if skipDockerLogin inp then
        fatal m = false /\ execs m = [] /\
        outputs (fst m) = published t pe ee
      else
        fatal m = true /\ execs m = [] /\ outputs (fst m) = []
  end.
Proof.
  unfold loginAndPublish, credentials, skipDockerLogin, dockerLogin,
    loginArgs, published, api_calls, execs, fatal.
  destruct (String.eqb (skip_docker_login inp) "true");
    split_responses remote; simpl; split_tests; simpl;
    split_responses remote; simpl;
    try (destruct (instanceofError _)); simpl;
    repeat split; reflexivity.
Qed.

(** ** The input stage *)

Lemma classifyRef_cases (ref : string) :
  (exists r, classifyRef ref = ret r) \/
  (exists msg, classifyRef ref = ([SetFailed msg], Return)).
Proof.
  unfold classifyRef.
  destruct (JS.startsWith ref "refs/tags/"); [left; eexists; reflexivity|].
  destruct (JS.startsWith ref "refs/pull/").
  - destruct (JS.truthy_opt (extractPullRequestId ref)); simpl.
    + left; eexists; reflexivity.
    + right; eexists; reflexivity.
  - destruct (JS.startsWith ref "refs/heads/").
    + left; eexists; reflexivity.
    + right; eexists; reflexivity.
Qed.

Lemma classifyRef_nonempty (ref : string) (r : RefInfo) :
  classifyRef ref = ret r -> JS.truthy ref = true.
Proof. destruct ref; [discriminate | reflexivity]. Qed.

(** With the required inputs and the GitHub context, [run] is a few log
    lines followed by classification, validation and login. *)
Lemma run_inputs_ok (inp : Inputs) (env : ProcessEnv) (remote : Remote)
    (ref repo : string) :
  JS.truthy (quant_api_key inp) = true ->
  JS.truthy (quant_organization inp) = true ->
  GITHUB_REF env = Some ref -> JS.truthy ref = true ->
  GITHUB_REPOSITORY env = Some repo -> JS.truthy repo = true ->
  exists pre,
    forallb is_log pre = true /\
    continuesAs (run inp env remote) pre
      (r <- classifyRef ref ;; afterClassify inp remote repo r).
Proof.
  intros Hk Ho Href Hne Hrepo Htr.
  unfold run, getInput_required, continuesAs, afterClassify.
  rewrite Hk, Ho, Href, Hrepo, !bind_ret.
  destruct ref as [|c1 r1]; [discriminate|].
  destruct repo as [|c2 r2]; [discriminate|].
  destruct (JS.truthy (base_url inp)); cbn [negb].
  - unfold warning. rewrite bind_assoc, bind_emit. cbv beta.
    rewrite bind_ret. cbv zeta.
    eexists [_]. split; [|reflexivity]. reflexivity.
  - rewrite bind_ret. cbv zeta.
    exists []. split; [reflexivity|].
    match goal with |- ?k = _ => destruct k end. reflexivity.
Qed.

Lemma run_ready (inp : Inputs) (env : ProcessEnv) (remote : Remote)
    (ref repo : string) (r : RefInfo) :
  ready inp env ref repo r ->
  exists pre,
    forallb is_log pre = true /\
    continuesAs (run inp env remote) pre (afterClassify inp remote repo r).
Proof.
  intros (Hk & Ho & Href & Hrepo & Htr & Hc).
  destruct (run_inputs_ok inp env remote ref repo Hk Ho Href
              (classifyRef_nonempty _ _ Hc) Hrepo Htr) as (pre & Hq & Hrun).
  rewrite Hc, bind_ret in Hrun. now exists pre.
Qed.

(** Without the GitHub context, [run] fails at once. *)
Lemma run_no_context (inp : Inputs) (env : ProcessEnv) (remote : Remote) :
  JS.truthy (quant_api_key inp) = true ->
  JS.truthy (quant_organization inp) = true ->
  JS.truthy_opt (GITHUB_REF env) && JS.truthy_opt (GITHUB_REPOSITORY env)
  = false ->
  fatal (run inp env remote) = true /\
  outputs (fst (run inp env remote)) = [] /\
  api_calls (run inp env remote) = [] /\
  execs (run inp env remote) = [].
Proof.
  intros Hk Ho Hctx.
  unfold run, getInput_required. rewrite Hk, Ho, !bind_ret.
  destruct (GITHUB_REF env) as [[|c1 r1]|];
    destruct (GITHUB_REPOSITORY env) as [[|c2 r2]|];
    try discriminate Hctx;
    destruct (JS.truthy (base_url inp)); repeat split; reflexivity.
Qed.

(** Short of [ready], [run] is fatal before any remote call. *)
Lemma run_cases (inp : Inputs) (env : ProcessEnv) (remote : Remote) :
  (exists ref repo r, ready inp env ref repo r) \/
  (fatal (run inp env remote) = true /\
   outputs (fst (run inp env remote)) = [] /\
   api_calls (run inp env remote) = [] /\
   execs (run inp env remote) = []).
Proof.
  unfold ready.
  destruct (JS.truthy (quant_api_key inp)) eqn:Hk.
  2:{ right. unfold run, getInput_required. rewrite Hk.
      repeat split; reflexivity. }
  destruct (JS.truthy (quant_organization inp)) eqn:Ho.
  2:{ right. unfold run, getInput_required. rewrite Hk, Ho.
      repeat split; reflexivity. }
  destruct (JS.truthy_opt (GITHUB_REF env)
            && JS.truthy_opt (GITHUB_REPOSITORY env)) eqn:Hctx.
  2:{ right. now apply run_no_context. }
  destruct (GITHUB_REF env) as [ref|] eqn:Href; [|discriminate].
  destruct (GITHUB_REPOSITORY env) as [repo|] eqn:Hrepo;
    [|now rewrite andb_false_r in Hctx].
  simpl in Hctx. apply andb_prop in Hctx. destruct Hctx as (Hne & Htr).
  destruct (classifyRef_cases ref) as [(r & Hc)|(msg & Hc)].
  - left. exists ref, repo, r. repeat split; auto.
  - right.
    destruct (run_inputs_ok inp env remote _ _ Hk Ho Href Hne Hrepo Htr)
      as (pre & Hq & ->).
    rewrite Hc. simpl fst. simpl snd.
    destruct (quiet_observations pre Hq) as (Hf & Hout & Hapi & Hex).
    unfold fatal, api_calls, execs. simpl fst.
    rewrite outputs_app, !filter_app, existsb_app, Hout, Hapi, Hex.
    repeat split; try reflexivity.
    simpl. now rewrite orb_true_r.
Qed.

(** ** Observations through a prefix *)

Lemma continuesAs_observations {A} (m : M A) (pre : list Event) (k : M A) :
  continuesAs m pre k ->
  failed pre = false -> outputs pre = [] -> filter is_exec pre = [] ->
  fatal m = fatal k /\
  outputs (fst m) = outputs (fst k) /\
  execs m = execs k /\
  api_calls m = (filter is_api pre ++ api_calls k)%list.
Proof.
  unfold continuesAs, fatal, execs, api_calls, failed.
  intros -> Hf Ho He. simpl fst. simpl snd.
  rewrite existsb_app, outputs_app, !filter_app, Hf, Ho, He.
  repeat split; reflexivity.
Qed.

(** Once validation passes, [run] is the login stage after a prefix without
    failure, output or command, whose remote calls are the four of
    validation. *)
Lemma run_validated (inp : Inputs) (env : ProcessEnv) (remote : Remote)
    (ref repo : string) (r : RefInfo) :
  ready inp env ref repo r ->
  let t := resolve inp repo r in
  let org := quant_organization inp in
  validationPasses remote org (applicationName t) = true ->
  exists pre,
    failed pre = false /\ outputs pre = [] /\ filter is_exec pre = [] /\
    filter is_api pre
    = validationCalls org (applicationName t) (environmentName t) /\
    continuesAs (run inp env remote) pre
      (loginAndPublish remote inp org t
         (fulfilled (getApplication remote org (applicationName t)))
         (fulfilled (getEnvironment remote org (applicationName t)
                       (environmentName t)))).
Proof.
  intros Hr t org Hv.
  destruct (run_ready inp env remote ref repo r Hr) as (pre & Hq & Hrun).
  destruct (validate_passes remote org (applicationName t) (environmentName t) Hv)
    as (tv & Hval & Hf & Hout & Hex & Hapi).
  destruct (quiet_observations pre Hq) as (Hf0 & Hout0 & Hapi0 & Hex0).
  exists (pre ++ tv)%list.
  rewrite failed_app, outputs_app, !filter_app, Hf0, Hf, Hout0, Hout,
    Hex0, Hex, Hapi0, Hapi.
  repeat split; try reflexivity.
  unfold continuesAs in *. rewrite Hrun. unfold afterClassify.
  fold t. fold org. cbv zeta. rewrite Hval, bind_normal.
  simpl fst. simpl snd. now rewrite app_assoc.
Qed.

Lemma run_invalid (inp : Inputs) (env : ProcessEnv) (remote : Remote)
    (ref repo : string) (r : RefInfo) :
  ready inp env ref repo r ->
  let t := resolve inp repo r in
  validationPasses remote (quant_organization inp) (applicationName t) = false ->
  fatal (run inp env remote) = true /\
  outputs (fst (run inp env remote)) = [] /\
  execs (run inp env remote) = [].
Proof.
  intros Hr t Hv.
  destruct (run_ready inp env remote ref repo r Hr) as (pre & Hq & Hrun).
  destruct (validate_fails remote _ (applicationName t) (environmentName t) Hv)
    as (tv & Hval & Hf & Hout & Hex).
  destruct (quiet_observations pre Hq) as (Hf0 & Hout0 & Hapi0 & Hex0).
  unfold continuesAs in Hrun. rewrite Hrun. unfold afterClassify.
  fold t. cbv zeta. rewrite Hval.
  unfold fatal, execs. simpl fst. simpl snd.
  fold (failed (pre ++ tv)).
  rewrite failed_app, outputs_app, filter_app, Hf, Hout, Hout0, Hex, Hex0.
  rewrite orb_true_r. repeat split; reflexivity.
Qed.

(** ** Unparseable refs *)

Lemma pull_not_tag (ref : string) : isPullRequest ref = true -> isTag ref = false.
Proof.
  unfold isPullRequest, isTag. intros H.
  rewrite (startsWith_decompose _ _ H). reflexivity.
Qed.

Lemma classifyRef_unparseable (ref : string) :
  (isTag ref = false /\ isPullRequest ref = false /\
   JS.startsWith ref "refs/heads/" = false) \/
  (isPullRequest ref = true /\ extractPullRequestId ref = None) ->
  classifyRef ref = ([SetFailed (refError ref)], Return).
Proof.
  unfold classifyRef, refError.
  intros [(Ht & Hp & Hh)|(Hp & Hid)].
  - unfold isTag in Ht. unfold isPullRequest in Hp.
    unfold isPullRequest. rewrite Ht, Hp, Hh. reflexivity.
  - pose proof (pull_not_tag _ Hp) as Ht.
    unfold isTag in Ht. unfold isPullRequest in Hp.
    unfold isPullRequest. rewrite Ht, Hp, Hid. reflexivity.
Qed.

Lemma failures_app (t u : list Event) :
  failures (t ++ u) = (failures t ++ failures u)%list.
Proof.
  induction t as [|e t IH]; simpl; [reflexivity|].
  destruct e; simpl; congruence.
Qed.

Lemma quiet_failures (t : list Event) :
  forallb is_log t = true -> failures t = [].
Proof.
  induction t as [|e t IH]; simpl; [auto|].
  destruct e; simpl; try discriminate. exact IH.
Qed.

(** C8: when the ref matches none of the tag, pull-request and branch-head
    prefixes, or is a pull-request ref from which no numeric id can be
    extracted, the run is fatal and makes no remote call, runs no command
    and publishes nothing; with the required inputs and the repository
    name present, it is failed with the one message that names the ref. *)
Theorem C8_unparseable_ref_is_fatal
    (inp : Inputs) (env : ProcessEnv) (remote : Remote) (ref : string) :
  GITHUB_REF env = Some ref ->
  (isTag ref = false /\ isPullRequest ref = false /\
   JS.startsWith ref "refs/heads/" = false) \/
  (isPullRequest ref = true /\ extractPullRequestId ref = None) ->
  let m := run inp env remote in
  fatal m = true /\ api_calls m = [] /\ execs m = [] /\
  outputs (fst m) = [] /\
  (JS.truthy (quant_api_key inp) = true ->
   JS.truthy (quant_organization inp) = true ->
   JS.truthy ref = true ->
   JS.truthy_opt (GITHUB_REPOSITORY env) = true ->
   failures (fst m) = [refError ref] /\ snd m = Return).
Proof.
  intros Href Hbad m.
  pose proof (classifyRef_unparseable ref Hbad) as Hc.
  assert (Hobs : fatal m = true /\ api_calls m = [] /\ execs m = [] /\
                 outputs (fst m) = []).
  { destruct (run_cases inp env remote)
      as [(ref' & repo & r & _ & _ & Href' & _ & _ & Hc')|(Hf & Ho & Ha & He)].
    - rewrite Href in Href'. injection Href' as <-.
      rewrite Hc in Hc'. discriminate Hc'.
    - subst m. auto. }
  destruct Hobs as (Hf & Ha & He & Ho).
  repeat split; try assumption.
  - destruct (GITHUB_REPOSITORY env) as [repo|] eqn:Hrepo; [|discriminate].
    destruct (run_inputs_ok inp env remote ref repo) as (pre & Hq & Hrun);
      auto.
    subst m. unfold continuesAs in Hrun. rewrite Hrun, Hc. simpl fst.
    rewrite failures_app, (quiet_failures _ Hq). reflexivity.
  - destruct (GITHUB_REPOSITORY env) as [repo|] eqn:Hrepo; [|discriminate].
    destruct (run_inputs_ok inp env remote ref repo) as (pre & Hq & Hrun);
      auto.
    subst m. unfold continuesAs in Hrun. rewrite Hrun, Hc. reflexivity.
Qed.

Lemma C8_unparseable_ref_is_fatal_witness :
  (GITHUB_REF (env_of "refs/pull/abc/merge" "owner/repo")
   = Some "refs/pull/abc/merge") /\
  (isPullRequest "refs/pull/abc/merge" = true /\
   extractPullRequestId "refs/pull/abc/merge" = None) /\
  fatal (run inputs0 (env_of "refs/pull/abc/merge" "owner/repo") remote_ok)
  = true /\
  api_calls (run inputs0 (env_of "refs/pull/abc/merge" "owner/repo") remote_ok)
  = [] /\
  failures
    (fst (run inputs0 (env_of "refs/pull/abc/merge" "owner/repo") remote_ok))
  = ["Could not extract pull request ID from ref: refs/pull/abc/merge"].
Proof.
  destruct (C8_unparseable_ref_is_fatal inputs0
              (env_of "refs/pull/abc/merge" "owner/repo") remote_ok
              "refs/pull/abc/merge" eq_refl
              (or_intror (conj eq_refl eq_refl)))
    as (Hf & Ha & _ & _ & Hmsg).
  destruct (Hmsg eq_refl eq_refl eq_refl eq_refl) as (Hm & _).
  exact (conj eq_refl (conj (conj eq_refl eq_refl) (conj Hf (conj Ha Hm)))).
Defined.

(** ** Application and environment lookups *)

Lemma validate_app_fatal (remote : Remote) (org : string)
    (app : option string) (envn : string) :
  fulfilled (listApplications remote org) = true ->
  rejectedFatal (getEcrLoginCredentials remote 0 org) = false ->
  rejectedFatal (getApplication remote org app) = true ->
  exists t,
    validate remote org app envn = (t, Return) /\
    filter is_api t
    = [Api (ListApplications org); Api (GetEcrLoginCredentials org);
       Api (GetApplication org app)].
Proof.
  unfold validate, rejectedFatal, rejectedAuth, rejectedNullish,
    responseStatus.
  split_responses remote; simpl; split_nullish; simpl; split_tests; simpl;
    intros H1 H2 H3;
    try discriminate H1; try discriminate H2; try discriminate H3;
    eexists; split; reflexivity.
Qed.

(** What the two lookups do with a rejection, as coded.  Past the
    organization listing and the credential probe, a rejection of the
    application lookup with 422, 401 or 403 (or with [null] or [undefined])
    is fatal and ends the run before the environment lookup; any other
    outcome of the application lookup, and any outcome whatever of the
    environment lookup, lets the run go on into the login stage with
    [projectExists] and [environmentExists] true exactly when the
    respective lookup succeeded. *)
Lemma lookup_errors_as_coded
    (inp : Inputs) (env : ProcessEnv) (remote : Remote)
    (ref repo : string) (r : RefInfo) :
  ready inp env ref repo r ->
  let t := resolve inp repo r in
  let org := quant_organization inp in
  let appR := getApplication remote org (applicationName t) in
  let envR := getEnvironment remote org (applicationName t)
                (environmentName t) in
  fulfilled (listApplications remote org) = true ->
  rejectedFatal (getEcrLoginCredentials remote 0 org) = false ->
  let m := run inp env remote in
  (rejectedFatal appR = true ->
   fatal m = true /\ outputs (fst m) = [] /\
   api_calls m
   = [Api (ListApplications org); Api (GetEcrLoginCredentials org);
      Api (GetApplication org (applicationName t))]) /\
  (rejectedFatal appR = false ->
   exists pre,
     failed pre = false /\
     filter is_api pre
     = validationCalls org (applicationName t) (environmentName t) /\
     continuesAs m pre
       (loginAndPublish remote inp org t (fulfilled appR) (fulfilled envR))).
Proof.
  intros Hr t org appR envR Hl He m. split.
  - intros Ha.
    assert (Hv : validationPasses remote org (applicationName t) = false).
    { unfold validationPasses. fold appR. rewrite Ha.
      apply andb_false_r. }
    destruct (run_invalid inp env remote ref repo r Hr Hv) as (Hf & Ho & _).
    split; [exact Hf|]. split; [exact Ho|].
    destruct (run_ready inp env remote ref repo r Hr) as (pre & Hq & Hrun).
    destruct (validate_app_fatal remote org (applicationName t)
                (environmentName t) Hl He Ha) as (tv & Hval & Hapi).
    destruct (quiet_observations pre Hq) as (_ & _ & Hapi0 & _).
    subst m. unfold continuesAs in Hrun. rewrite Hrun.
    unfold afterClassify. fold t. fold org. cbv zeta. rewrite Hval.
    unfold api_calls. simpl fst. now rewrite filter_app, Hapi0, Hapi.
  - intros Ha.
    assert (Hv : validationPasses remote org (applicationName t) = true).
    { unfold validationPasses. fold appR. now rewrite Hl, He, Ha. }
    destruct (run_validated inp env remote ref repo r Hr Hv)
      as (pre & Hf & _ & _ & Hapi & Hrun).
    exists pre. auto.
Qed.

(** C4: the first half holds, the second fails on the code.  With both
    lookups answering not-found the run is not fatal and publishes
    [project_exists = false] and [environment_exists = false].  With the
    environment lookup rejected with 401 the run is not fatal either and
    publishes [environment_exists = false], although the same rejection of
    the application lookup, whose policy the environment lookup is to
    share, is fatal. *)
Theorem C4_environment_lookup_unauthorized :
  (fatal (run inputs0 (env_of "refs/heads/main" "owner/repo")
            remote_not_found) = false /\
   output "project_exists"
     (run inputs0 (env_of "refs/heads/main" "owner/repo") remote_not_found)
   = Some (Some "false") /\
   output "environment_exists"
     (run inputs0 (env_of "refs/heads/main" "owner/repo") remote_not_found)
   = Some (Some "false")) /\
  (rejectedAuth (getEnvironment remote_env_unauthorized "org" (Some "repo")
                   "production") = true /\
   fatal (run inputs0 (env_of "refs/heads/main" "owner/repo")
            remote_env_unauthorized) = false /\
   output "environment_exists"
     (run inputs0 (env_of "refs/heads/main" "owner/repo")
        remote_env_unauthorized) = Some (Some "false")) /\
  (rejectedAuth (getApplication remote_app_unauthorized "org" (Some "repo"))
   = true /\
   fatal (run inputs0 (env_of "refs/heads/main" "owner/repo")
            remote_app_unauthorized) = true).
Proof. repeat split; reflexivity. Qed.

(** ** Registry login *)

(** C7, as stated, fails: the run also fails where login is not required
    (here the organization listing is rejected while [skip_docker_login] is
    set), and where login is required and the credentials are available
    (here the login command itself exits with an error). *)
Lemma C7_counterexample :
  (skipDockerLogin inputs_skip = true /\
   fatal (run inputs_skip (env_of "refs/heads/main" "owner/repo")
            remote_org_down) = true) /\
  (skipDockerLogin inputs0 = false /\
   credentials remote_login_fails "org" = Some token /\
   fatal (run inputs0 (env_of "refs/heads/main" "owner/repo")
            remote_login_fails) = true).
Proof. repeat split; reflexivity. Qed.

(** C7 (amended): once the input stage and validation have passed, the run
    is fatal exactly when login is not skipped and either no credentials
    are available or the login command fails.  With the skip flag set and
    no credentials, the run is not fatal, runs no command and publishes its
    seven outputs; with the skip flag unset and no credentials, the run is
    fatal and publishes nothing. *)
Theorem C7_login_policy
    (inp : Inputs) (env : ProcessEnv) (remote : Remote)
    (ref repo : string) (r : RefInfo) :
  ready inp env ref repo r ->
  let t := resolve inp repo r in
  let org := quant_organization inp in
  validationPasses remote org (applicationName t) = true ->
  let m := run inp env remote in
  let pe := fulfilled (getApplication remote org (applicationName t)) in
  let ee := fulfilled (getEnvironment remote org (applicationName t)
                         (environmentName t)) in
  (fatal m = true <->
   skipDockerLogin inp = false /\
   (credentials remote org = None \/ loginCommandFails remote org = true)) /\
  (skipDockerLogin inp = true -> credentials remote org = None ->
   fatal m = false /\ execs m = [] /\
   outputs (fst m) = published t pe ee) /\
  (skipDockerLogin inp = false -> credentials remote org = None ->
   fatal m = true /\ execs m = [] /\ outputs (fst m) = []).
Proof.
  intros Hr t org Hv m pe ee.
  destruct (run_validated inp env remote ref repo r Hr Hv)
    as (pre & Hf & Ho & Hx & _ & Hrun).
  destruct (continuesAs_observations _ _ _ Hrun Hf Ho Hx)
    as (Efatal & Eout & Eexec & _).
  fold t org pe ee in Efatal, Eout, Eexec. fold m in Efatal, Eout, Eexec.
  destruct (login_spec remote inp org t pe ee) as (_ & Hlogin).
  cbv zeta in Hlogin. rewrite <- Efatal, <- Eout, <- Eexec in Hlogin.
  unfold loginCommandFails.
  destruct (credentials remote org) as [d|];
    destruct (skipDockerLogin inp);
    try destruct (fulfilled (exec_docker remote (loginArgs d)));
    destruct Hlogin as (H1 & H2 & H3); rewrite H1;
    repeat split; try assumption; try discriminate; try tauto;
    simpl; try intuition discriminate.
Qed.

Lemma C7_login_policy_witness :
  ready inputs_skip (env_of "refs/heads/main" "owner/repo")
    "refs/heads/main" "owner/repo" (branchInfo "main") /\
  validationPasses remote_no_credentials "org" (Some "repo") = true /\
  skipDockerLogin inputs_skip = true /\
  credentials remote_no_credentials "org" = None /\
  fatal (run inputs_skip (env_of "refs/heads/main" "owner/repo")
           remote_no_credentials) = false /\
  execs (run inputs_skip (env_of "refs/heads/main" "owner/repo")
           remote_no_credentials) = [] /\
  outputs (fst (run inputs_skip (env_of "refs/heads/main" "owner/repo")
                  remote_no_credentials))
  = published (resolve inputs_skip "owner/repo" (branchInfo "main")) true true.
Proof.
  assert (Hr : ready inputs_skip (env_of "refs/heads/main" "owner/repo")
                 "refs/heads/main" "owner/repo" (branchInfo "main")).
  { unfold ready. repeat split; reflexivity. }
  destruct (C7_login_policy inputs_skip
              (env_of "refs/heads/main" "owner/repo") remote_no_credentials
              "refs/heads/main" "owner/repo" (branchInfo "main") Hr eq_refl)
    as (_ & Hskip & _).
  exact (conj Hr (conj eq_refl (conj eq_refl (conj eq_refl
           (Hskip eq_refl eq_refl))))).
Defined.

(** ** Published outputs *)

(** A run publishes nothing, or the seven outputs of its resolved target,
    preceded by [stripped_endpoint] when credentials were retrieved. *)
Lemma run_outputs (inp : Inputs) (env : ProcessEnv) (remote : Remote) :
  outputs (fst (run inp env remote)) = [] \/
  exists ref repo r pe ee,
    ready inp env ref repo r /\
    (outputs (fst (run inp env remote))
     = published (resolve inp repo r) pe ee \/
     exists ep,
       outputs (fst (run inp env remote))
       = ("stripped_endpoint", Some ep)
           :: published (resolve inp repo r) pe ee).
Proof.
  destruct (run_cases inp env remote)
    as [(ref & repo & r & Hr)|(_ & Ho & _)]; [|now left].
  destruct (validationPasses remote (quant_organization inp)
              (applicationName (resolve inp repo r))) eqn:Hv.
  2:{ left. now destruct (run_invalid inp env remote ref repo r Hr Hv)
        as (_ & Ho & _). }
  destruct (run_validated inp env remote ref repo r Hr Hv)
    as (pre & Hf & Ho & Hx & _ & Hrun).
  destruct (continuesAs_observations _ _ _ Hrun Hf Ho Hx) as (_ & Eout & _).
  match type of Eout with
  | _ = outputs (fst (loginAndPublish _ _ ?org ?t ?pe ?ee)) =>
      destruct (login_spec remote inp org t pe ee) as (_ & Hlogin);
      cbv zeta in Hlogin; rewrite <- Eout in Hlogin;
      destruct (credentials remote org) as [d|];
      destruct (skipDockerLogin inp);
      try destruct (fulfilled (exec_docker remote (loginArgs d)));
      destruct Hlogin as (_ & _ & H3); rewrite H3;
      try (now left); right; exists ref, repo, r, pe, ee;
      (split; [exact Hr|]); eauto
  end.
Qed.

(** C6: whenever a run publishes [image_suffix], it publishes
    [image_suffix_clean] too; the suffix is ["-"] followed by the clean
    value, and the clean value is the suffix with that one leading ["-"]
    stripped. *)
Theorem C6_suffix_clean_roundtrip
    (inp : Inputs) (env : ProcessEnv) (remote : Remote)
    (suffix : option string) :
  output "image_suffix" (run inp env remote) = Some suffix ->
  exists clean,
    output "image_suffix_clean" (run inp env remote) = Some (Some clean) /\
    suffix = Some ("-" ++ clean) /\
    stripLeadingDash ("-" ++ clean) = clean.
Proof.
  unfold output.
  destruct (run_outputs inp env remote)
    as [->|(ref & repo & r & pe & ee & _ & [->|(ep & ->)])];
    [discriminate| |];
    destruct (resolve_suffix_dash inp repo r) as (body & Hb);
    unfold published; rewrite Hb; simpl;
    intros [= <-]; exists body; repeat split; reflexivity.
Qed.

Lemma C6_suffix_clean_roundtrip_witness :
  output "image_suffix"
    (run inputs0 (env_of "refs/heads/Fix.1" "owner/repo") remote_ok)
  = Some (Some "-fix.1") /\
  exists clean,
    output "image_suffix_clean"
      (run inputs0 (env_of "refs/heads/Fix.1" "owner/repo") remote_ok)
    = Some (Some clean) /\
    Some "-fix.1" = Some ("-" ++ clean) /\
    stripLeadingDash ("-" ++ clean) = clean.
Proof.
  exact (conj eq_refl
           (C6_suffix_clean_roundtrip inputs0
              (env_of "refs/heads/Fix.1" "owner/repo") remote_ok
              (Some "-fix.1") eq_refl)).
Defined.

(** ** The application name of a repository identifier without slash *)

Lemma split_no_separator (sep : ascii) (s : string) :
  contains sep s = false -> JS.split sep s = [s].
Proof.
  induction s as [|c s IH]; simpl; [reflexivity|].
  intros H. apply orb_false_elim in H. destruct H as (Hc & Hs).
  rewrite Hc, (IH Hs). reflexivity.
Qed.

Lemma validate_starts (remote : Remote) (org : string)
    (app : option string) (envn : string) :
  exists msg rest,
    fst (validate remote org app envn)
    = Log Info msg :: Api (ListApplications org) :: rest.
Proof.
  unfold validate, responseStatus.
  split_responses remote; simpl; split_nullish; simpl; split_tests; simpl;
    do 2 eexists; reflexivity.
Qed.

(** C10: without application-name override, a repository identifier that
    holds no ["/"] splits into a single piece, so that index 1 is out of
    bounds and the application name is undefined.  This is no input error:
    the run goes on to the remote validation, and where every remote call
    succeeds it ends without failure, publishing an undefined
    [quant_application]. *)
Theorem C10_application_name_without_slash
    (inp : Inputs) (env : ProcessEnv) (remote : Remote)
    (ref repo : string) (r : RefInfo) :
  ready inp env ref repo r ->
  JS.truthy (quant_application inp) = false ->
  contains "/" repo = false ->
  JS.split "/" repo = [repo] /\
  nth_error (JS.split "/" repo) 1 = None /\
  applicationName (resolve inp repo r) = None /\
  (exists pre msg rest,
     forallb is_log pre = true /\
     fst (run inp env remote)
     = (pre ++ Log Info msg
            :: Api (ListApplications (quant_organization inp)) :: rest)%list) /\
  fatal (run inp env remote_ok) = false /\
  output "quant_application" (run inp env remote_ok) = Some None.
Proof.
  intros Hr Happ Hslash.
  pose proof (split_no_separator "/" repo Hslash) as Hsplit.
  assert (Hname : applicationName (resolve inp repo r) = None).
  { unfold resolve. simpl. now rewrite Happ, Hsplit. }
  split; [exact Hsplit|].
  split; [now rewrite Hsplit|].
  split; [exact Hname|].
  split.
  - destruct (run_ready inp env remote ref repo r Hr) as (pre & Hq & Hrun).
    unfold continuesAs in Hrun. rewrite Hrun. simpl fst.
    unfold afterClassify. cbv zeta.
    destruct (validate_starts remote (quant_organization inp)
                (applicationName (resolve inp repo r))
                (environmentName (resolve inp repo r)))
      as (msg & rest & Hstart).
    destruct (validate remote (quant_organization inp)
                (applicationName (resolve inp repo r))
                (environmentName (resolve inp repo r))) as [tv cv].
    simpl in Hstart. subst tv.
    exists pre, msg.
    destruct cv as [[pe ee]| |e]; simpl.
    + destruct (loginAndPublish remote inp (quant_organization inp)
                  (resolve inp repo r) pe ee) as [tl cl].
      simpl. eauto.
    + eauto.
    + eauto.
  - destruct (run_validated inp env remote_ok ref repo r Hr eq_refl)
      as (pre & Hf & Ho & Hx & _ & Hrun).
    destruct (continuesAs_observations _ _ _ Hrun Hf Ho Hx)
      as (Efatal & Eout & _).
    match type of Eout with
    | _ = outputs (fst (loginAndPublish _ _ ?org ?t ?pe ?ee)) =>
        destruct (login_spec remote_ok inp org t pe ee) as (_ & Hlogin)
    end.
    cbv zeta in Hlogin. rewrite <- Efatal, <- Eout in Hlogin.
    unfold output.
    change (credentials remote_ok (quant_organization inp)) with (Some token)
      in Hlogin.
    destruct (skipDockerLogin inp); simpl in Hlogin;
      destruct Hlogin as (H1 & _ & H3); rewrite H1, H3;
      unfold published; rewrite Hname; split; reflexivity.
Qed.

Lemma C10_application_name_without_slash_witness :
  ready inputs0 (env_of "refs/heads/main" "repo")
    "refs/heads/main" "repo" (branchInfo "main") /\
  JS.truthy (quant_application inputs0) = false /\
  contains "/" "repo" = false /\
  applicationName (resolve inputs0 "repo" (branchInfo "main")) = None /\
  fatal (run inputs0 (env_of "refs/heads/main" "repo") remote_ok) = false /\
  output "quant_application"
    (run inputs0 (env_of "refs/heads/main" "repo") remote_ok) = Some None.
Proof.
  assert (Hr : ready inputs0 (env_of "refs/heads/main" "repo")
                 "refs/heads/main" "repo" (branchInfo "main")).
  { unfold ready. repeat split; reflexivity. }
  destruct (C10_application_name_without_slash inputs0
              (env_of "refs/heads/main" "repo") remote_ok
              "refs/heads/main" "repo" (branchInfo "main") Hr eq_refl eq_refl)
    as (_ & _ & Hname & _ & Hf & Hout).
  exact (conj Hr (conj eq_refl (conj eq_refl (conj Hname (conj Hf Hout))))).
Defined.

(** * Further properties of the source *)

(** ** Strings *)

Lemma forallb_append (p : ascii -> bool) (s u : string) :
  JS.forallb p (s ++ u) = JS.forallb p s && JS.forallb p u.
Proof.
  induction s as [|c s IH]; simpl; [reflexivity|].
  now rewrite IH, andb_assoc.
Qed.

Lemma forallb_map (p : ascii -> bool) (f : ascii -> ascii) (s : string) :
  (forall c, p (f c) = true) -> JS.forallb p (JS.map f s) = true.
Proof.
  intros H. induction s as [|c s IH]; simpl; [reflexivity|].
  now rewrite H, IH.
Qed.

Lemma forallb_weaken (p q : ascii -> bool) (s : string) :
  (forall c, p c = true -> q c = true) ->
  JS.forallb p s = true -> JS.forallb q s = true.
Proof.
  intros H. induction s as [|c s IH]; simpl; [reflexivity|].
  intros Hp. apply andb_prop in Hp. destruct Hp as (Hc & Hs).
  now rewrite (H c Hc), (IH Hs).
Qed.

Lemma length_map (f : ascii -> ascii) (s : string) :
  String.length (JS.map f s) = String.length s.
Proof. induction s; simpl; congruence. Qed.

Lemma span_spec (p : ascii -> bool) (s a b : string) :
  JS.span p s = (a, b) ->
  s = a ++ b /\ JS.forallb p a = true /\
  match b with
  | EmptyString => True
  | String c _ => p c = false
  end.
Proof.
  revert a b. induction s as [|c s IH]; simpl; intros a b H.
  - injection H as <- <-. auto.
  - destruct (p c) eqn:Hc.
    + destruct (JS.span p s) as [a' b'] eqn:Hs.
      injection H as <- <-.
      destruct (IH a' b' eq_refl) as (E & Ha & Hb).
      simpl. rewrite Hc, Ha, <- E. auto.
    + injection H as <- <-. simpl. rewrite Hc. auto.
Qed.

Lemma span_append (p : ascii -> bool) (a : string) (c : ascii) (b : string) :
  JS.forallb p a = true -> p c = false ->
  JS.span p (a ++ String c b) = (a, String c b).
Proof.
  intros Ha Hc. induction a as [|d a IH]; simpl in *.
  - now rewrite Hc.
  - apply andb_prop in Ha. destruct Ha as (Hd & Ha).
    now rewrite Hd, (IH Ha).
Qed.

(** ** Pull-request refs *)

Lemma extractPullRequestId_inv (ref id : string) :
  extractPullRequestId ref = Some id ->
  JS.truthy id = true /\
  JS.forallb JS.isDigit id = true /\
  exists rest, ref = "refs/pull/" ++ id ++ "/" ++ rest.
Proof.
  unfold extractPullRequestId.
  destruct (JS.startsWith ref "refs/pull/") eqn:Hp; [|discriminate].
  destruct (JS.span JS.isDigit (JS.drop 10 ref)) as [a b] eqn:Hs.
  destruct (span_spec _ _ _ _ Hs) as (E & Ha & _).
  destruct a as [|d ds]; [discriminate|].
  destruct b as [|c rest]; [discriminate|].
  destruct (Ascii.eqb c "/") eqn:Hc.
  - apply Ascii.eqb_eq in Hc. subst c.
    intros [= <-]. split; [reflexivity|]. split; [exact Ha|].
    exists rest. rewrite (startsWith_decompose _ _ Hp) at 1.
    change (String.length "refs/pull/") with 10. now rewrite E.
  - intros H. exfalso. revert H Hc. clear.
    destruct c as [[] [] [] [] [] [] [] []]; simpl; congruence.
Qed.

(** What [extractPullRequestId] returns is a non-empty run of digits that
    stands in the ref between [refs/pull/] and a ["/"]. *)
Theorem extractPullRequestId_sound (ref id : string) :
  extractPullRequestId ref = Some id ->
  JS.truthy id = true /\
  JS.forallb JS.isDigit id = true /\
  exists rest, ref = "refs/pull/" ++ id ++ "/" ++ rest.
Proof. apply extractPullRequestId_inv. Qed.

Lemma extractPullRequestId_sound_witness :
  extractPullRequestId "refs/pull/123/merge" = Some "123" /\
  JS.truthy "123" = true /\
  JS.forallb JS.isDigit "123" = true /\
  exists rest, "refs/pull/123/merge" = "refs/pull/" ++ "123" ++ "/" ++ rest.
Proof.
  exact (conj eq_refl
           (extractPullRequestId_sound "refs/pull/123/merge" "123" eq_refl)).
Defined.

Lemma extractPullRequestId_digits (id rest : string) :
  JS.truthy id = true -> JS.forallb JS.isDigit id = true ->
  extractPullRequestId ("refs/pull/" ++ id ++ "/" ++ rest) = Some id.
Proof.
  intros Hne Hd. unfold extractPullRequestId.
  rewrite (startsWith_append "refs/pull/").
  change 10 with (String.length "refs/pull/"). rewrite drop_append.
  change ("/" ++ rest) with (String "/" rest).
  rewrite (span_append JS.isDigit id "/"%char rest Hd eq_refl).
  destruct id; [discriminate | reflexivity].
Qed.

(** Every ref made of [refs/pull/], a non-empty run of digits, ["/"] and
    anything after yields that run of digits as its id, whatever follows. *)
Theorem extractPullRequestId_complete (id rest : string) :
  JS.truthy id = true -> JS.forallb JS.isDigit id = true ->
  extractPullRequestId ("refs/pull/" ++ id ++ "/" ++ rest) = Some id /\
  isPullRequest ("refs/pull/" ++ id ++ "/" ++ rest) = true /\
  isTag ("refs/pull/" ++ id ++ "/" ++ rest) = false.
Proof.
  intros Hne Hd.
  split; [now apply extractPullRequestId_digits|].
  split; [apply (startsWith_append "refs/pull/") | reflexivity].
Qed.

Lemma extractPullRequestId_complete_witness :
  JS.truthy "7" = true /\ JS.forallb JS.isDigit "7" = true /\
  extractPullRequestId ("refs/pull/" ++ "7" ++ "/" ++ "head/9") = Some "7".
Proof.
  destruct (extractPullRequestId_complete "7" "head/9" eq_refl eq_refl)
    as (H & _).
  exact (conj eq_refl (conj eq_refl H)).
Defined.

Lemma classifyRef_pull (id rest : string) :
  JS.truthy id = true -> JS.forallb JS.isDigit id = true ->
  classifyRef ("refs/pull/" ++ id ++ "/" ++ rest) = ret (prInfo id).
Proof.
  intros Hne Hd. unfold classifyRef.
  assert (H1 : JS.startsWith ("refs/pull/" ++ id ++ "/" ++ rest) "refs/tags/"
               = false) by reflexivity.
  rewrite H1, (startsWith_append "refs/pull/"),
    (extractPullRequestId_digits _ _ Hne Hd).
  simpl JS.truthy_opt. rewrite Hne. reflexivity.
Qed.

Lemma pr_not_default_production (id : string) :
  isProductionBranch ("pr-" ++ id) "" = false.
Proof. reflexivity. Qed.

(** A pull-request ref with id [id], without environment-name override,
    resolves to the environment [pr-id] and the suffix [-pr-id]; it is
    production exactly when [master_branch_override] is the placeholder
    branch name [pr-id] itself. *)
Theorem pull_request_resolution (inp : Inputs) (repo id rest : string) :
  JS.truthy id = true -> JS.forallb JS.isDigit id = true ->
  JS.truthy (environment_name_override inp) = false ->
  let t := resolve inp repo (prInfo id) in
  classifyRef ("refs/pull/" ++ id ++ "/" ++ rest) = ret (prInfo id) /\
  environmentName t = "pr-" ++ id /\
  imageSuffix t = "-pr-" ++ id /\
  (isProduction t = true <-> master_branch_override inp = "pr-" ++ id).
Proof.
  intros Hne Hd Ho t.
  split; [now apply classifyRef_pull|].
  subst t. unfold resolve, prInfo.
  cbn [environmentName imageSuffix isProduction branch isTagRef isPrRef prId].
  rewrite Ho. unfold generateEnvironmentName, generateImageSuffix.
  rewrite Ho. cbn [JS.truthy_opt andb]. rewrite Hne.
  split; [reflexivity|]. split; [reflexivity|].
  rewrite orb_false_r, isProductionBranch_In. unfold productionBranches.
  destruct (master_branch_override inp) as [|c m] eqn:Hm;
    cbn [JS.truthy In].
  - split; [intros [H|[H|[]]]; discriminate H | discriminate].
  - split; [intros [H|[]]; exact H | intros H; left; exact H].
Qed.

Lemma pull_request_resolution_witness :
  JS.truthy "42" = true /\ JS.forallb JS.isDigit "42" = true /\
  JS.truthy (environment_name_override inputs0) = false /\
  classifyRef ("refs/pull/" ++ "42" ++ "/" ++ "merge") = ret (prInfo "42") /\
  environmentName (resolve inputs0 "owner/repo" (prInfo "42")) = "pr-42" /\
  imageSuffix (resolve inputs0 "owner/repo" (prInfo "42")) = "-pr-42".
Proof.
  destruct (pull_request_resolution inputs0 "owner/repo" "42" "merge"
              eq_refl eq_refl eq_refl) as (Hc & He & Hs & _).
  exact (conj eq_refl (conj eq_refl (conj eq_refl (conj Hc (conj He Hs))))).
Defined.

(** ** Ref descriptors *)

Lemma classifyRef_inversion (ref : string) (r : RefInfo) :
  classifyRef ref = ret r ->
  (r = tagInfo (branch r) /\ ref = "refs/tags/" ++ branch r) \/
  (exists id rest,
     r = prInfo id /\ JS.truthy id = true /\
     JS.forallb JS.isDigit id = true /\
     ref = "refs/pull/" ++ id ++ "/" ++ rest) \/
  (r = branchInfo (branch r) /\ ref = "refs/heads/" ++ branch r).
Proof.
  unfold classifyRef.
  destruct (JS.startsWith ref "refs/tags/") eqn:Ht.
  - intros [= <-]. left. simpl. split; [reflexivity|].
    rewrite (replaceFirst_startsWith _ _ _ Ht).
    exact (startsWith_decompose _ _ Ht).
  - destruct (JS.startsWith ref "refs/pull/") eqn:Hp.
    + destruct (extractPullRequestId ref) as [id|] eqn:Hid; simpl.
      * destruct (extractPullRequestId_inv _ _ Hid) as (Hne & Hd & rest & E).
        rewrite Hne. simpl. intros [= <-].
        right. left. exists id, rest. auto.
      * discriminate.
    + destruct (JS.startsWith ref "refs/heads/") eqn:Hh; simpl.
      * intros [= <-]. right. right. simpl. split; [reflexivity|].
        rewrite (replaceFirst_startsWith _ _ _ Hh).
        exact (startsWith_decompose _ _ Hh).
      * discriminate.
Qed.

(** Every ref [run] accepts is rebuilt from its descriptor: a tag is
    [refs/tags/] followed by its name, a branch [refs/heads/] followed by
    its name, and a pull request [refs/pull/], its id of digits, ["/"] and
    a rest, with the placeholder branch name [pr-id]; the descriptor has a
    [prId] exactly when it is a pull request, and is never both tag and
    pull request. *)
Theorem classifyRef_descriptor (ref : string) (r : RefInfo) :
  classifyRef ref = ret r ->
  ((isTagRef r = true /\ isPrRef r = false /\ prId r = None /\
    ref = "refs/tags/" ++ branch r) \/
   (isTagRef r = false /\ isPrRef r = true /\
    exists id rest,
      prId r = Some id /\ branch r = "pr-" ++ id /\
      JS.truthy id = true /\ JS.forallb JS.isDigit id = true /\
      ref = "refs/pull/" ++ id ++ "/" ++ rest) \/
   (isTagRef r = false /\ isPrRef r = false /\ prId r = None /\
    ref = "refs/heads/" ++ branch r)) /\
  isTagRef r && isPrRef r = false /\
  JS.truthy_opt (prId r) = isPrRef r.
Proof.
  intros Hc.
  destruct (classifyRef_inversion ref r Hc)
    as [(Er & E)|[(id & rest & Er & Hne & Hd & E)|(Er & E)]].
  - rewrite Er. simpl. split; [left; rewrite Er in E; auto | auto].
  - rewrite Er. simpl. split; [|auto].
    right. left. split; [reflexivity|]. split; [reflexivity|].
    exists id, rest. auto.
  - rewrite Er. simpl. split; [right; right; rewrite Er in E; auto | auto].
Qed.

Lemma classifyRef_descriptor_witness :
  classifyRef "refs/pull/42/merge" = ret (prInfo "42") /\
  isTagRef (prInfo "42") && isPrRef (prInfo "42") = false /\
  JS.truthy_opt (prId (prInfo "42")) = isPrRef (prInfo "42").
Proof.
  destruct (classifyRef_descriptor "refs/pull/42/merge" (prInfo "42") eq_refl)
    as (_ & H1 & H2).
  exact (conj eq_refl (conj H1 H2)).
Defined.

(** ** The character sets of the derived names *)

Lemma envChar_class (c : ascii) : isEnvChar (spec_envChar c) = true.
Proof. ascii_cases c. Qed.

Lemma imageChar_class (c : ascii) : isSuffixChar (spec_imageChar c) = true.
Proof. ascii_cases c. Qed.

Lemma digit_envChar (c : ascii) : JS.isDigit c = true -> isEnvChar c = true.
Proof.
  unfold isEnvChar. intros ->. now rewrite orb_true_r.
Qed.

Lemma envChar_suffixChar (c : ascii) :
  isEnvChar c = true -> isSuffixChar c = true.
Proof. unfold isSuffixChar. now intros ->. Qed.

Lemma envSlug_class (s : string) : JS.forallb isEnvChar (envSlug s) = true.
Proof. rewrite envSlug_spec. apply forallb_map, envChar_class. Qed.

Lemma imageSlug_class (s : string) :
  JS.forallb isSuffixChar (imageSlug s) = true.
Proof. rewrite imageSlug_spec. apply forallb_map, imageChar_class. Qed.

(** Without environment-name override, the environment name of every ref
    [run] accepts (tag, pull request or branch, whatever the branch name
    and [master_branch_override]) is made of lower-case letters, digits
    and ["-"] only. *)
Theorem environmentName_charset
    (inp : Inputs) (repo ref : string) (r : RefInfo) :
  classifyRef ref = ret r ->
  JS.truthy (environment_name_override inp) = false ->
  JS.forallb isEnvChar (environmentName (resolve inp repo r)) = true.
Proof.
  intros Hc Ho.
  unfold resolve. cbn [environmentName]. unfold generateEnvironmentName.
  rewrite Ho.
  destruct (classifyRef_inversion ref r Hc)
    as [(Er & _)|[(id & rest & Er & Hne & Hd & _)|(Er & _)]];
    rewrite Er; unfold tagInfo, prInfo, branchInfo;
    cbn [branch isTagRef isPrRef prId JS.truthy_opt andb].
  - reflexivity.
  - rewrite Hne. cbn [JS.show]. rewrite forallb_append.
    now rewrite (forallb_weaken _ _ _ digit_envChar Hd).
  - destruct (isProductionBranch (branch r) (master_branch_override inp));
      [reflexivity|].
    destruct (String.eqb (branch r) "develop"); [reflexivity|].
    fold (envSlug (branch r)).
    destruct (JS.startsWith (branch r) "feature/"); apply envSlug_class.
Qed.

Lemma environmentName_charset_witness :
  classifyRef "refs/heads/Feature/JIRA_12.x" = ret (branchInfo "Feature/JIRA_12.x") /\
  JS.truthy (environment_name_override inputs0) = false /\
  environmentName (resolve inputs0 "owner/repo" (branchInfo "Feature/JIRA_12.x"))
  = "feature-jira-12-x" /\
  JS.forallb isEnvChar
    (environmentName (resolve inputs0 "owner/repo"
                        (branchInfo "Feature/JIRA_12.x"))) = true.
Proof.
  exact (conj eq_refl (conj eq_refl (conj eq_refl
    (environmentName_charset inputs0 "owner/repo"
       "refs/heads/Feature/JIRA_12.x" (branchInfo "Feature/JIRA_12.x")
       eq_refl eq_refl)))).
Defined.

(** The image suffix of every ref [run] accepts is made of lower-case
    letters, digits and ["-"] when an environment-name override is given,
    and of these and ["."] when there is none and the ref is not a tag
    (a tag name goes into the suffix verbatim). *)
Theorem imageSuffix_charset
    (inp : Inputs) (repo ref : string) (r : RefInfo) :
  classifyRef ref = ret r ->
  (JS.truthy (environment_name_override inp) = true ->
   JS.forallb isEnvChar (imageSuffix (resolve inp repo r)) = true) /\
  (JS.truthy (environment_name_override inp) = false ->
   isTag ref = false ->
   JS.forallb isSuffixChar (imageSuffix (resolve inp repo r)) = true).
Proof.
  intros Hc. unfold resolve. cbn [imageSuffix]. split; intros Ho.
  - rewrite Ho. fold (envSlug (environment_name_override inp)).
    rewrite forallb_append, envSlug_class. reflexivity.
  - rewrite Ho. rewrite <- (classifyRef_isTagRef _ _ Hc).
    unfold generateImageSuffix. intros ->.
    destruct (classifyRef_inversion ref r Hc)
      as [(Er & _)|[(id & rest & Er & Hne & Hd & _)|(Er & _)]];
      rewrite Er; unfold tagInfo, prInfo, branchInfo;
      cbn [branch isTagRef isPrRef prId JS.truthy_opt andb].
    + destruct (isProductionBranch (branch r) (master_branch_override inp));
        [reflexivity|].
      destruct (String.eqb (branch r) "develop"); [reflexivity|].
      fold (imageSlug (branch r)).
      destruct (JS.startsWith (branch r) "feature/");
        rewrite forallb_append, imageSlug_class; reflexivity.
    + rewrite Hne. cbn [JS.show]. rewrite forallb_append.
      rewrite (forallb_weaken _ _ _
                 (fun c H => envChar_suffixChar c (digit_envChar c H)) Hd).
      reflexivity.
    + destruct (isProductionBranch (branch r) (master_branch_override inp));
        [reflexivity|].
      destruct (String.eqb (branch r) "develop"); [reflexivity|].
      fold (imageSlug (branch r)).
      destruct (JS.startsWith (branch r) "feature/");
        rewrite forallb_append, imageSlug_class; reflexivity.
Qed.

Lemma imageSuffix_charset_witness :
  classifyRef "refs/heads/Release_2.1" = ret (branchInfo "Release_2.1") /\
  JS.truthy (environment_name_override inputs0) = false /\
  isTag "refs/heads/Release_2.1" = false /\
  imageSuffix (resolve inputs0 "owner/repo" (branchInfo "Release_2.1"))
  = "-release-2.1" /\
  JS.forallb isSuffixChar
    (imageSuffix (resolve inputs0 "owner/repo" (branchInfo "Release_2.1")))
  = true.
Proof.
  destruct (imageSuffix_charset inputs0 "owner/repo" "refs/heads/Release_2.1"
              (branchInfo "Release_2.1") eq_refl) as (_ & H).
  exact (conj eq_refl (conj eq_refl (conj eq_refl (conj eq_refl
           (H eq_refl eq_refl))))).
Defined.

(** ** Algebra of the two slugs *)

Lemma envChar_idem (c : ascii) : spec_envChar (spec_envChar c) = spec_envChar c.
Proof. ascii_cases c. Qed.

Lemma imageChar_idem (c : ascii) :
  spec_imageChar (spec_imageChar c) = spec_imageChar c.
Proof. ascii_cases c. Qed.

Lemma envChar_imageChar (c : ascii) :
  spec_envChar (spec_imageChar c) = spec_envChar c.
Proof. ascii_cases c. Qed.

(** Both slugs keep the length of their argument and are idempotent, and
    the environment slug of an image slug is the environment slug: a name
    already slugged is left as it is. *)
Theorem slug_idempotent (s : string) :
  String.length (envSlug s) = String.length s /\
  String.length (imageSlug s) = String.length s /\
  envSlug (envSlug s) = envSlug s /\
  imageSlug (imageSlug s) = imageSlug s /\
  envSlug (imageSlug s) = envSlug s.
Proof.
  rewrite !imageSlug_spec, !envSlug_spec, !length_map, !map_map.
  repeat split; apply map_ext;
    auto using envChar_idem, imageChar_idem, envChar_imageChar.
Qed.

(** ** [stripProtocol] *)

(** [stripProtocol] removes one leading [https://] or [http://] and nothing
    else: the endpoint is always one of these schemes, or nothing, followed
    by the result; endpoints with neither scheme are returned as they are;
    whatever follows the scheme, a second scheme included, is kept. *)
Theorem stripProtocol_scheme (endpoint host : string) :
  (exists scheme,
     (scheme = "https://" \/ scheme = "http://" \/ scheme = "") /\
     endpoint = scheme ++ stripProtocol endpoint) /\
  stripProtocol ("https://" ++ host) = host /\
  stripProtocol ("http://" ++ host) = host /\
  (JS.startsWith endpoint "https://" = false ->
   JS.startsWith endpoint "http://" = false ->
   stripProtocol endpoint = endpoint).
Proof.
  unfold stripProtocol. split; [|split; [|split]].
  - destruct (JS.startsWith endpoint "https://") eqn:Hs.
    + exists "https://". split; [auto|].
      exact (startsWith_decompose _ _ Hs).
    + destruct (JS.startsWith endpoint "http://") eqn:Hp.
      * exists "http://". split; [auto|].
        exact (startsWith_decompose _ _ Hp).
      * exists "". auto.
  - rewrite (startsWith_append "https://").
    exact (drop_append "https://" host).
  - assert (H : JS.startsWith ("http://" ++ host) "https://" = false)
      by reflexivity.
    rewrite H, (startsWith_append "http://").
    exact (drop_append "http://" host).
  - now intros -> ->.
Qed.

Lemma stripProtocol_scheme_witness :
  JS.startsWith "registry.example.com" "https://" = false /\
  JS.startsWith "registry.example.com" "http://" = false /\
  stripProtocol "registry.example.com" = "registry.example.com" /\
  stripProtocol ("https://" ++ "http://x") = "http://x".
Proof.
  destruct (stripProtocol_scheme "registry.example.com" "http://x")
    as (_ & Hs & _ & Hnone).
  exact (conj eq_refl (conj eq_refl (conj (Hnone eq_refl eq_refl) Hs))).
Defined.

(** ** The application name *)

Lemma split_at_separator (sep : ascii) (a rest : string) :
  contains sep a = false ->
  JS.split sep (a ++ String sep rest) = a :: JS.split sep rest.
Proof.
  induction a as [|c a IH]; simpl.
  - intros _. now rewrite Ascii.eqb_refl.
  - intros H. apply orb_false_elim in H. destruct H as (Hc & Ha).
    now rewrite Hc, (IH Ha).
Qed.

(** The application name is the override when there is one; otherwise it
    is the second piece of the repository identifier: for [owner/name] the
    name, and with more than one ["/"] what stands between the first and
    the second, never what follows. *)
Theorem application_name_from_repository
    (inp : Inputs) (owner name rest : string) (r : RefInfo) :
  contains "/" owner = false ->
  contains "/" name = false ->
  (JS.truthy (quant_application inp) = true ->
   applicationName (resolve inp (owner ++ "/" ++ name) r)
   = Some (quant_application inp)) /\
  (JS.truthy (quant_application inp) = false ->
   applicationName (resolve inp (owner ++ "/" ++ name) r) = Some name /\
   applicationName (resolve inp (owner ++ "/" ++ name ++ "/" ++ rest) r)
   = Some name).
Proof.
  intros Ho Hn. unfold resolve. cbn [applicationName].
  split; intros ->; [reflexivity|].
  change ("/" ++ name) with (String "/" name).
  change ("/" ++ name ++ "/" ++ rest)
    with (String "/" (name ++ String "/" rest)).
  rewrite !(split_at_separator _ _ _ Ho), (split_at_separator _ _ _ Hn),
    (split_no_separator _ _ Hn).
  split; reflexivity.
Qed.

Lemma application_name_from_repository_witness :
  contains "/" "quantcdn" = false /\
  contains "/" "site" = false /\
  JS.truthy (quant_application inputs0) = false /\
  applicationName (resolve inputs0 ("quantcdn" ++ "/" ++ "site")
                     (branchInfo "main")) = Some "site" /\
  applicationName (resolve inputs0 ("quantcdn" ++ "/" ++ "site" ++ "/" ++ "x/y")
                     (branchInfo "main")) = Some "site".
Proof.
  destruct (application_name_from_repository inputs0 "quantcdn" "site" "x/y"
              (branchInfo "main") eq_refl eq_refl) as (_ & H).
  destruct (H eq_refl) as (H1 & H2).
  exact (conj eq_refl (conj eq_refl (conj eq_refl (conj H1 H2)))).
Defined.

(** ** The shape of a run *)

Lemma run_shape (inp : Inputs) (env : ProcessEnv) (remote : Remote) :
  (JS.truthy (quant_api_key inp) && JS.truthy (quant_organization inp) = false
   /\ exists e, run inp env remote = ([], Throw e)) \/
  (JS.truthy (quant_api_key inp) && JS.truthy (quant_organization inp) = true
   /\ exists pre msg,
        forallb is_log pre = true /\
        run inp env remote = ((pre ++ [SetFailed msg])%list, Return)) \/
  (exists ref repo r pre,
     ready inp env ref repo r /\ forallb is_log pre = true /\
     continuesAs (run inp env remote) pre (afterClassify inp remote repo r)).
Proof.
  destruct (JS.truthy (quant_api_key inp)) eqn:Hk.
  2:{ left. split; [reflexivity|]. unfold run, getInput_required.
      rewrite Hk. eexists; reflexivity. }
  destruct (JS.truthy (quant_organization inp)) eqn:Ho.
  2:{ left. split; [reflexivity|]. unfold run, getInput_required.
      rewrite Hk, Ho. eexists; reflexivity. }
  right.
  destruct (JS.truthy_opt (GITHUB_REF env)
            && JS.truthy_opt (GITHUB_REPOSITORY env)) eqn:Hctx.
  2:{ left. split; [reflexivity|].
      unfold run, getInput_required. rewrite Hk, Ho, !bind_ret.
      destruct (GITHUB_REF env) as [[|c1 r1]|];
        destruct (GITHUB_REPOSITORY env) as [[|c2 r2]|];
        try discriminate Hctx;
        destruct (JS.truthy (base_url inp));
        first [ eexists [_], _; split; [|reflexivity]; reflexivity
              | eexists [], _; split; [|reflexivity]; reflexivity ]. }
  destruct (GITHUB_REF env) as [ref|] eqn:Href; [|discriminate].
  destruct (GITHUB_REPOSITORY env) as [repo|] eqn:Hrepo;
    [|now rewrite andb_false_r in Hctx].
  simpl in Hctx. apply andb_prop in Hctx. destruct Hctx as (Hne & Htr).
  destruct (run_inputs_ok inp env remote _ _ Hk Ho Href Hne Hrepo Htr)
    as (pre & Hq & Hrun).
  destruct (classifyRef_cases ref) as [(r & Hc)|(msg & Hc)].
  - right. exists ref, repo, r, pre. rewrite Hc, bind_ret in Hrun.
    unfold ready. auto 10.
  - left. split; [reflexivity|]. exists pre, msg. split; [exact Hq|].
    unfold continuesAs in Hrun. now rewrite Hrun, Hc.
Qed.

Lemma afterClassify_shape (inp : Inputs) (remote : Remote) (repo : string)
    (r : RefInfo) :
  let t := resolve inp repo r in
  let org := quant_organization inp in
  let v := validate remote org (applicationName t) (environmentName t) in
  (validationPasses remote org (applicationName t) = false /\
   snd v = Return /\ afterClassify inp remote repo r = (fst v, Return)) \/
  (validationPasses remote org (applicationName t) = true /\
   exists pe ee,
     snd v = Normal (pe, ee) /\
     pe = fulfilled (getApplication remote org (applicationName t)) /\
     ee = fulfilled (getEnvironment remote org (applicationName t)
                       (environmentName t)) /\
     continuesAs (afterClassify inp remote repo r) (fst v)
       (loginAndPublish remote inp org t pe ee)).
Proof.
  intros t org v.
  destruct (validationPasses remote org (applicationName t)) eqn:Hv.
  - right. split; [reflexivity|].
    destruct (validate_passes remote org (applicationName t)
                (environmentName t) Hv) as (tv & Hval & _).
    do 2 eexists. subst v. rewrite Hval.
    split; [reflexivity|]. split; [reflexivity|]. split; [reflexivity|].
    unfold continuesAs, afterClassify. fold t. fold org. cbv zeta.
    rewrite Hval, bind_normal. reflexivity.
  - left. split; [reflexivity|].
    destruct (validate_fails remote org (applicationName t)
                (environmentName t) Hv) as (tv & Hval & _).
    subst v. rewrite Hval. split; [reflexivity|].
    unfold afterClassify. fold t. fold org. cbv zeta. now rewrite Hval.
Qed.

Lemma validate_facts (remote : Remote) (org : string)
    (app : option string) (envn : string) :
  let m := validate remote org app envn in
  throws m = false /\
  existsb is_error_log (fst m) = genericHandlerRuns remote org app /\
  outputs (fst m) = [] /\ filter is_exec (fst m) = [] /\
  prefixOf (filter is_api (fst m)) (validationCalls org app envn) /\
  (exists rest, filter is_api (fst m) = Api (ListApplications org) :: rest) /\
  match snd m with
  | Normal _ => failures (fst m) = []
  | _ => exists msg, failures (fst m) = [msg]
  end.
Proof.
  unfold validate, validationCalls, throws, prefixOf, responseStatus,
    genericHandlerRuns, rejectedFatal, rejectedAuth, rejectedNullish.
  split_responses remote; simpl; split_nullish; simpl; split_tests; simpl;
    repeat split; try reflexivity;
    try (eexists; reflexivity).
Qed.

Lemma login_facts (remote : Remote) (inp : Inputs) (org : string)
    (t : Target) (pe ee : bool) :
  let m := loginAndPublish remote inp org t pe ee in
  throws m = false /\
  (failures (fst m) = [] \/ exists msg, failures (fst m) = [msg]) /\
  (skipDockerLogin inp = true -> execs m = []).
Proof.
  unfold loginAndPublish, skipDockerLogin, dockerLogin, throws, execs.
  destruct (String.eqb (skip_docker_login inp) "true");
    split_responses remote; simpl; split_tests; simpl;
    split_responses remote; simpl;
    try (destruct (instanceofError _)); simpl;
    repeat split; try reflexivity; try discriminate;
    try (left; reflexivity); try (right; eexists; reflexivity).
Qed.

Lemma failures_quiet_prefix (pre t : list Event) :
  forallb is_log pre = true -> failures (pre ++ t) = failures t.
Proof.
  intros Hq. now rewrite failures_app, (quiet_failures _ Hq).
Qed.

Lemma continuesAs_throws {A} (m : M A) (pre : list Event) (k : M A) :
  continuesAs m pre k -> throws m = throws k.
Proof. unfold continuesAs, throws. now intros ->. Qed.

Lemma continuesAs_failures {A} (m : M A) (pre : list Event) (k : M A) :
  continuesAs m pre k ->
  failures (fst m) = (failures pre ++ failures (fst k))%list.
Proof. unfold continuesAs. intros ->. apply failures_app. Qed.

Lemma continuesAs_api {A} (m : M A) (pre : list Event) (k : M A) :
  continuesAs m pre k ->
  api_calls m = (filter is_api pre ++ api_calls k)%list.
Proof. unfold continuesAs, api_calls. intros ->. apply filter_app. Qed.

Lemma continuesAs_execs {A} (m : M A) (pre : list Event) (k : M A) :
  continuesAs m pre k ->
  execs m = (filter is_exec pre ++ execs k)%list.
Proof. unfold continuesAs, execs. intros ->. apply filter_app. Qed.

(** ** Required inputs and uncaught exceptions *)

(** When [quant_api_key] or [quant_organization] is not supplied, [run]
    ends by the exception of [getInput], uncaught: nothing is logged,
    failed, called or published, and the message names the first missing
    input, the API key before the organization. *)
Theorem run_missing_required_input
    (inp : Inputs) (env : ProcessEnv) (remote : Remote) :
  JS.truthy (quant_api_key inp) && JS.truthy (quant_organization inp) = false ->
  fst (run inp env remote) = [] /\
  exists e,
    snd (run inp env remote) = Throw e /\
    instanceofError e = true /\
    message e = "Input required and not supplied: " ++ missingInput inp.
Proof.
  unfold run, getInput_required, missingInput.
  destruct (JS.truthy (quant_api_key inp)); simpl.
  - intros ->. split; [reflexivity|]. eexists. repeat split.
  - intros _. split; [reflexivity|]. eexists. repeat split.
Qed.

Lemma run_missing_required_input_witness :
  JS.truthy (quant_api_key inputs_missing)
  && JS.truthy (quant_organization inputs_missing) = false /\
  fst (run inputs_missing (env_of "refs/heads/main" "owner/repo") remote_ok)
  = [] /\
  exists e,
    snd (run inputs_missing (env_of "refs/heads/main" "owner/repo") remote_ok)
    = Throw e /\
    instanceofError e = true /\
    message e = "Input required and not supplied: "
                ++ missingInput inputs_missing.
Proof.
  exact (conj eq_refl
           (run_missing_required_input inputs_missing
              (env_of "refs/heads/main" "owner/repo") remote_ok eq_refl)).
Defined.

(** [run] ends by an uncaught exception only when a required input is
    missing: every error of the remote API and of the login command is
    caught. *)
Theorem run_throws_only_on_missing_input
    (inp : Inputs) (env : ProcessEnv) (remote : Remote) :
  throws (run inp env remote)
  = negb (JS.truthy (quant_api_key inp) && JS.truthy (quant_organization inp)).
Proof.
  destruct (run_shape inp env remote)
    as [(Hin & e & ->)|[(Hin & pre & msg & _ & ->)
                       |(ref & repo & r & pre & Hr & _ & Hrun)]].
  - now rewrite Hin.
  - now rewrite Hin.
  - destruct Hr as (Hk & Ho & _). rewrite Hk, Ho.
    rewrite (continuesAs_throws _ _ _ Hrun).
    destruct (afterClassify_shape inp remote repo r)
      as [(_ & _ & ->)|(_ & pe & ee & _ & _ & _ & Hlogin)]; [reflexivity|].
    rewrite (continuesAs_throws _ _ _ Hlogin).
    now destruct (login_facts remote inp (quant_organization inp)
                    (resolve inp repo r) pe ee) as (-> & _).
Qed.

(** ** Failure and outputs *)

(** A run publishes outputs exactly when it is not fatal: a fatal run
    publishes nothing at all, and a run that is not fatal has published. *)
Theorem run_fatal_iff_no_outputs
    (inp : Inputs) (env : ProcessEnv) (remote : Remote) :
  fatal (run inp env remote) = true <-> outputs (fst (run inp env remote)) = [].
Proof.
  destruct (run_cases inp env remote)
    as [(ref & repo & r & Hr)|(Hf & Ho & _)]; [|now rewrite Hf, Ho].
  destruct (validationPasses remote (quant_organization inp)
              (applicationName (resolve inp repo r))) eqn:Hv.
  2:{ destruct (run_invalid inp env remote ref repo r Hr Hv) as (Hf & Ho & _).
      now rewrite Hf, Ho. }
  destruct (run_validated inp env remote ref repo r Hr Hv)
    as (pre & Hf & Ho & Hx & _ & Hrun).
  destruct (continuesAs_observations _ _ _ Hrun Hf Ho Hx)
    as (Efatal & Eout & _).
  rewrite Efatal, Eout.
  match goal with
  | |- context [loginAndPublish _ _ ?org ?t ?pe ?ee] =>
      destruct (login_spec remote inp org t pe ee) as (_ & Hlogin);
      cbv zeta in Hlogin;
      destruct (credentials remote org) as [d|];
      destruct (skipDockerLogin inp);
      try destruct (fulfilled (exec_docker remote (loginArgs d)));
      destruct Hlogin as (H1 & _ & H3); rewrite H1, H3
  end; split; (discriminate || reflexivity).
Qed.

Lemma run_fatal_iff_no_outputs_witness :
  outputs (fst (run inputs0 (env_of "refs/heads/main" "owner/repo")
                  remote_login_fails)) = [] /\
  fatal (run inputs0 (env_of "refs/heads/main" "owner/repo")
           remote_login_fails) = true.
Proof.
  destruct (run_fatal_iff_no_outputs inputs0
              (env_of "refs/heads/main" "owner/repo") remote_login_fails)
    as (_ & H).
  exact (conj eq_refl (H eq_refl)).
Defined.

(** [setFailed] is called at most once in a run. *)
Theorem run_fails_at_most_once
    (inp : Inputs) (env : ProcessEnv) (remote : Remote) :
  failures (fst (run inp env remote)) = [] \/
  exists msg, failures (fst (run inp env remote)) = [msg].
Proof.
  destruct (run_shape inp env remote)
    as [(_ & e & ->)|[(_ & pre & msg & Hq & ->)
                     |(ref & repo & r & pre & _ & Hq & Hrun)]].
  - now left.
  - right. exists msg. simpl fst. now rewrite failures_quiet_prefix.
  - rewrite (continuesAs_failures _ _ _ Hrun), (quiet_failures _ Hq).
    simpl app.
    destruct (validate_facts remote (quant_organization inp)
                (applicationName (resolve inp repo r))
                (environmentName (resolve inp repo r)))
      as (_ & _ & _ & _ & _ & _ & Hfail).
    cbv zeta in Hfail.
    destruct (afterClassify_shape inp remote repo r)
      as [(_ & Hs & ->)|(_ & pe & ee & Hs & _ & _ & Hlogin)];
      rewrite Hs in Hfail.
    + now right.
    + rewrite (continuesAs_failures _ _ _ Hlogin), Hfail. simpl app.
      now destruct (login_facts remote inp (quant_organization inp)
                      (resolve inp repo r) pe ee) as (_ & H & _).
Qed.

(** ** Remote calls and the login command *)

Lemma prefixOf_app {A} (pre l full : list A) :
  prefixOf l full -> prefixOf (pre ++ l) (pre ++ full).
Proof.
  intros (rest & ->). exists rest. now rewrite app_assoc.
Qed.

Lemma prefixOf_app_r {A} (l full more : list A) :
  prefixOf l full -> prefixOf l (full ++ more).
Proof.
  intros (rest & ->). exists (rest ++ more)%list. now rewrite app_assoc.
Qed.

(** Past its input stage, the remote calls of a run are an initial segment
    of one fixed sequence, starting with the organization listing: list
    applications, credential probe, application lookup, environment lookup,
    credentials for login.  A run thus makes at most five calls and never
    reorders or repeats a lookup. *)
Theorem run_api_calls_in_order
    (inp : Inputs) (env : ProcessEnv) (remote : Remote)
    (ref repo : string) (r : RefInfo) :
  ready inp env ref repo r ->
  let t := resolve inp repo r in
  let org := quant_organization inp in
  prefixOf (api_calls (run inp env remote))
    (allCalls org (applicationName t) (environmentName t)) /\
  exists rest,
    api_calls (run inp env remote) = Api (ListApplications org) :: rest.
Proof.
  intros Hr t org.
  destruct (run_ready inp env remote ref repo r Hr) as (pre & Hq & Hrun).
  destruct (quiet_observations pre Hq) as (_ & _ & Hapi0 & _).
  rewrite (continuesAs_api _ _ _ Hrun), Hapi0. simpl app.
  destruct (validate_facts remote org (applicationName t) (environmentName t))
    as (_ & _ & _ & _ & Hpre & (rest & Hhead) & _).
  cbv zeta in Hpre, Hhead.
  destruct (afterClassify_shape inp remote repo r)
    as [(_ & _ & ->)|(Hv & pe & ee & _ & _ & _ & Hlogin)].
  - unfold api_calls. simpl fst. split.
    + now apply prefixOf_app_r.
    + now exists rest.
  - rewrite (continuesAs_api _ _ _ Hlogin).
    destruct (validate_passes remote org (applicationName t)
                (environmentName t) Hv) as (tv & Hval & _ & _ & _ & Hcalls).
    fold t org in Hlogin |- *. rewrite Hval in *. simpl fst in *.
    rewrite Hcalls.
    destruct (login_spec remote inp org t pe ee) as (-> & _).
    split.
    + exists []. unfold allCalls. now rewrite app_nil_r.
    + eexists. reflexivity.
Qed.

Lemma run_api_calls_in_order_witness :
  ready inputs0 (env_of "refs/heads/main" "owner/repo")
    "refs/heads/main" "owner/repo" (branchInfo "main") /\
  prefixOf
    (api_calls (run inputs0 (env_of "refs/heads/main" "owner/repo")
                  remote_app_unauthorized))
    (allCalls "org" (Some "repo") "production") /\
  api_calls (run inputs0 (env_of "refs/heads/main" "owner/repo")
               remote_app_unauthorized)
  = [Api (ListApplications "org"); Api (GetEcrLoginCredentials "org");
     Api (GetApplication "org" (Some "repo"))].
Proof.
  assert (Hr : ready inputs0 (env_of "refs/heads/main" "owner/repo")
                 "refs/heads/main" "owner/repo" (branchInfo "main")).
  { unfold ready. repeat split; reflexivity. }
  destruct (run_api_calls_in_order inputs0
              (env_of "refs/heads/main" "owner/repo") remote_app_unauthorized
              "refs/heads/main" "owner/repo" (branchInfo "main") Hr)
    as (Hp & _).
  exact (conj Hr (conj Hp eq_refl)).
Defined.

(** The login command is run at most once in a run, only with the
    credentials retrieved for login, and never when [skip_docker_login] is
    [true]. *)
Theorem docker_login_at_most_once
    (inp : Inputs) (env : ProcessEnv) (remote : Remote) :
  (skipDockerLogin inp = true -> execs (run inp env remote) = []) /\
  (execs (run inp env remote) = [] \/
   exists d,
     credentials remote (quant_organization inp) = Some d /\
     skipDockerLogin inp = false /\
     execs (run inp env remote) = [Exec "docker" (loginArgs d)]).
Proof.
  destruct (run_shape inp env remote)
    as [(_ & e & ->)|[(_ & pre & msg & Hq & ->)
                     |(ref & repo & r & pre & _ & Hq & Hrun)]].
  - split; [reflexivity | now left].
  - destruct (quiet_observations pre Hq) as (_ & _ & _ & Hx).
    unfold execs. simpl fst. rewrite filter_app, Hx.
    split; [reflexivity | now left].
  - destruct (quiet_observations pre Hq) as (_ & _ & _ & Hx).
    rewrite (continuesAs_execs _ _ _ Hrun), Hx. simpl app.
    destruct (validate_facts remote (quant_organization inp)
                (applicationName (resolve inp repo r))
                (environmentName (resolve inp repo r)))
      as (_ & _ & _ & Hxv & _).
    cbv zeta in Hxv.
    destruct (afterClassify_shape inp remote repo r)
      as [(_ & _ & ->)|(_ & pe & ee & _ & _ & _ & Hlogin)].
    + unfold execs. cbn [fst]. rewrite Hxv.
      split; [reflexivity | now left].
    + rewrite (continuesAs_execs _ _ _ Hlogin), Hxv. simpl app.
      destruct (login_spec remote inp (quant_organization inp)
                  (resolve inp repo r) pe ee) as (_ & Hspec).
      cbv zeta in Hspec.
      destruct (credentials remote (quant_organization inp)) as [d|];
        destruct (skipDockerLogin inp);
        try destruct (fulfilled (exec_docker remote (loginArgs d)));
        destruct Hspec as (_ & -> & _);
        (split; [try reflexivity; discriminate|]);
        try (now left); right; exists d; auto.
Qed.

Lemma docker_login_at_most_once_witness :
  skipDockerLogin inputs_skip = true /\
  execs (run inputs_skip (env_of "refs/heads/main" "owner/repo") remote_ok)
  = [] /\
  execs (run inputs0 (env_of "refs/heads/main" "owner/repo") remote_ok)
  = [Exec "docker" (loginArgs token)].
Proof.
  destruct (docker_login_at_most_once inputs_skip
              (env_of "refs/heads/main" "owner/repo") remote_ok) as (H & _).
  exact (conj eq_refl (conj (H eq_refl) eq_refl)).
Defined.

(** A run that is not fatal got past the input stage and validation, and
    published the seven outputs of its resolved target, preceded by
    [stripped_endpoint] exactly when credentials were retrieved for login:
    [project_exists] and [environment_exists] tell whether the respective
    lookup succeeded, and of the registry token only the endpoint, without
    its scheme, is published.  Without credentials such a run had
    [skip_docker_login] set. *)
Theorem successful_run_outputs
    (inp : Inputs) (env : ProcessEnv) (remote : Remote) :
  fatal (run inp env remote) = false ->
  exists ref repo r,
    ready inp env ref repo r /\
    let t := resolve inp repo r in
    let org := quant_organization inp in
    validationPasses remote org (applicationName t) = true /\
    outputs (fst (run inp env remote))
    = (endpointOutput (credentials remote org)
       ++ published t
            (fulfilled (getApplication remote org (applicationName t)))
            (fulfilled (getEnvironment remote org (applicationName t)
                          (environmentName t))))%list /\
    (credentials remote org = None -> skipDockerLogin inp = true).
Proof.
  intros Hnf.
  destruct (run_cases inp env remote)
    as [(ref & repo & r & Hr)|(Hf & _)]; [|congruence].
  exists ref, repo, r. split; [exact Hr|]. cbv zeta.
  destruct (validationPasses remote (quant_organization inp)
              (applicationName (resolve inp repo r))) eqn:Hv.
  2:{ destruct (run_invalid inp env remote ref repo r Hr Hv) as (Hf & _).
      congruence. }
  split; [reflexivity|].
  destruct (run_validated inp env remote ref repo r Hr Hv)
    as (pre & Hf & Ho & Hx & _ & Hrun).
  destruct (continuesAs_observations _ _ _ Hrun Hf Ho Hx)
    as (Efatal & Eout & _).
  rewrite Eout. rewrite Efatal in Hnf.
  match goal with
  | |- context [loginAndPublish _ _ ?org ?t ?pe ?ee] =>
      destruct (login_spec remote inp org t pe ee) as (_ & Hlogin);
      cbv zeta in Hlogin;
      destruct (credentials remote org) as [d|];
      destruct (skipDockerLogin inp);
      try destruct (fulfilled (exec_docker remote (loginArgs d)));
      destruct Hlogin as (H1 & _ & H3); rewrite H3
  end; try congruence; split; try reflexivity; try discriminate.
Qed.

Lemma successful_run_outputs_witness :
  fatal (run inputs_skip (env_of "refs/heads/main" "owner/repo")
           remote_not_found) = false /\
  outputs (fst (run inputs_skip (env_of "refs/heads/main" "owner/repo")
                  remote_not_found))
  = [("stripped_endpoint", Some "registry.example.com");
     ("project_exists", Some "false");
     ("environment_exists", Some "false");
     ("quant_application", Some "repo");
     ("environment_name", Some "production");
     ("is_production", Some "true");
     ("image_suffix", Some "-latest");
     ("image_suffix_clean", Some "latest")] /\
  exists ref repo r,
    ready inputs_skip (env_of "refs/heads/main" "owner/repo") ref repo r.
Proof.
  destruct (successful_run_outputs inputs_skip
              (env_of "refs/heads/main" "owner/repo") remote_not_found
              eq_refl) as (ref & repo & r & Hr & _).
  exact (conj eq_refl (conj eq_refl
           (ex_intro _ ref (ex_intro _ repo (ex_intro _ r Hr))))).
Defined.

(** ** The validation policy *)

(** [validate] lets no exception escape, publishes nothing and runs no
    command, and it has called [setFailed], exactly once, precisely when it
    ends the run.  Its generic handler runs, and a line is logged at error
    level, exactly when the credential probe or the application lookup is
    rejected with [null] or [undefined]: the handler of that call then
    throws on its own property access.  For every other rejection the
    generic handler is dead code. *)
Theorem validate_handles_every_error (remote : Remote) (org : string)
    (app : option string) (envn : string) :
  let m := validate remote org app envn in
  throws m = false /\
  existsb is_error_log (fst m) = genericHandlerRuns remote org app /\
  outputs (fst m) = [] /\ filter is_exec (fst m) = [] /\
  match snd m with
  | Normal _ => failures (fst m) = []
  | _ => exists msg, failures (fst m) = [msg]
  end.
Proof.
  destruct (validate_facts remote org app envn)
    as (H1 & H2 & H3 & H4 & _ & _ & H5).
  cbv zeta in *. auto.
Qed.

Lemma validate_org_rejected (remote : Remote) (org : string)
    (app : option string) (envn : string) (e : Thrown) :
  listApplications remote org = Rejected e ->
  exists msg,
    validate remote org app envn
    = ([Log Info msg; Api (ListApplications org);
        SetFailed ("Organization '" ++ org
                   ++ "' does not exist or is not accessible: "
                   ++ errorMessage e)], Return).
Proof.
  intros H. unfold validate. rewrite H. eexists. reflexivity.
Qed.

(** Any rejection of the organization listing is fatal, whatever its
    status, 404 included: the run makes that one remote call, fails with a
    message naming the organization and the error, and publishes
    nothing. *)
Theorem organization_listing_failure
    (inp : Inputs) (env : ProcessEnv) (remote : Remote)
    (ref repo : string) (r : RefInfo) (e : Thrown) :
  ready inp env ref repo r ->
  listApplications remote (quant_organization inp) = Rejected e ->
  let m := run inp env remote in
  fatal m = true /\
  api_calls m = [Api (ListApplications (quant_organization inp))] /\
  failures (fst m)
  = ["Organization '" ++ quant_organization inp
     ++ "' does not exist or is not accessible: " ++ errorMessage e] /\
  outputs (fst m) = [] /\ execs m = [].
Proof.
  intros Hr Hl m.
  destruct (run_ready inp env remote ref repo r Hr) as (pre & Hq & Hrun).
  destruct (quiet_observations pre Hq) as (Hf0 & Ho0 & Ha0 & Hx0).
  destruct (validate_org_rejected remote (quant_organization inp)
              (applicationName (resolve inp repo r))
              (environmentName (resolve inp repo r)) e Hl) as (msg & Hval).
  assert (Hafter : afterClassify inp remote repo r
                   = (fst (validate remote (quant_organization inp)
                             (applicationName (resolve inp repo r))
                             (environmentName (resolve inp repo r))), Return)).
  { unfold afterClassify. cbv zeta. now rewrite Hval. }
  subst m. unfold continuesAs in Hrun. rewrite Hrun, Hafter, Hval.
  unfold fatal, api_calls, execs. cbn [fst snd].
  rewrite existsb_app, !filter_app, failures_app, outputs_app,
    (quiet_failures _ Hq), Ho0, Ha0, Hx0.
  fold (failed pre). rewrite Hf0. repeat split; reflexivity.
Qed.

Lemma organization_listing_failure_witness :
  ready inputs0 (env_of "refs/heads/main" "owner/repo")
    "refs/heads/main" "owner/repo" (branchInfo "main") /\
  listApplications remote_org_not_found (quant_organization inputs0)
  = Rejected (err (Some 404%Z) "Not Found") /\
  fatal (run inputs0 (env_of "refs/heads/main" "owner/repo")
           remote_org_not_found) = true /\
  failures (fst (run inputs0 (env_of "refs/heads/main" "owner/repo")
                   remote_org_not_found))
  = ["Organization 'org' does not exist or is not accessible: Not Found"].
Proof.
  assert (Hr : ready inputs0 (env_of "refs/heads/main" "owner/repo")
                 "refs/heads/main" "owner/repo" (branchInfo "main")).
  { unfold ready. repeat split; reflexivity. }
  destruct (organization_listing_failure inputs0
              (env_of "refs/heads/main" "owner/repo") remote_org_not_found
              "refs/heads/main" "owner/repo" (branchInfo "main")
              (err (Some 404%Z) "Not Found") Hr eq_refl)
    as (Hf & _ & Hmsg & _).
  exact (conj Hr (conj eq_refl (conj Hf Hmsg))).
Defined.

Lemma validate_probe (remote : Remote) (org : string)
    (app : option string) (envn : string) :
  fulfilled (listApplications remote org) = true ->
  let m := validate remote org app envn in
  (rejectedFatal (getEcrLoginCredentials remote 0 org) = true ->
   snd m = Return /\
   filter is_api (fst m)
   = [Api (ListApplications org); Api (GetEcrLoginCredentials org)] /\
   exists e,
     getEcrLoginCredentials remote 0 org = Rejected e /\
     failures (fst m)
     = [if nullish e then message (typeError e "response")
        else "Failed to validate organization credentials: "
             ++ errorMessage e]) /\
  (rejectedFatal (getEcrLoginCredentials remote 0 org) = false ->
   exists rest,
     filter is_api (fst m)
     = Api (ListApplications org) :: Api (GetEcrLoginCredentials org)
         :: Api (GetApplication org app) :: rest).
Proof.
  unfold validate, rejectedFatal, rejectedAuth, rejectedNullish,
    responseStatus.
  split_responses remote; simpl; split_nullish; simpl; split_tests; simpl;
    intros H; try discriminate H;
    (split; intros H'; try discriminate H');
    repeat split; try reflexivity;
    try (eexists; split; reflexivity);
    try (eexists; reflexivity).
Qed.

(** The credential probe of validation ends the run in two cases.  Rejected
    with 422, 401 or 403, it fails the run with a message for the
    credentials.  Rejected with [null] or [undefined], its handler throws
    on its own property access and the generic handler fails the run with
    the message of that [TypeError].  In both cases the run ends after two
    remote calls.  Any other outcome of the probe, an error or missing
    credentials, is passed over and the application lookup is made. *)
Theorem credential_probe_policy
    (inp : Inputs) (env : ProcessEnv) (remote : Remote)
    (ref repo : string) (r : RefInfo) :
  ready inp env ref repo r ->
  let t := resolve inp repo r in
  let org := quant_organization inp in
  fulfilled (listApplications remote org) = true ->
  let m := run inp env remote in
  (rejectedFatal (getEcrLoginCredentials remote 0 org) = true ->
   fatal m = true /\
   api_calls m = [Api (ListApplications org); Api (GetEcrLoginCredentials org)] /\
   exists e,
     getEcrLoginCredentials remote 0 org = Rejected e /\
     failures (fst m)
     = [if nullish e then message (typeError e "response")
        else "Failed to validate organization credentials: "
             ++ errorMessage e]) /\
  (rejectedFatal (getEcrLoginCredentials remote 0 org) = false ->
   exists rest,
     api_calls m
     = Api (ListApplications org) :: Api (GetEcrLoginCredentials org)
         :: Api (GetApplication org (applicationName t)) :: rest).
Proof.
  intros Hr t org Hl m.
  destruct (run_ready inp env remote ref repo r Hr) as (pre & Hq & Hrun).
  destruct (quiet_observations pre Hq) as (Hf0 & Ho0 & Ha0 & Hx0).
  destruct (validate_probe remote org (applicationName t) (environmentName t)
              Hl) as (Hauth & Hsoft).
  cbv zeta in Hauth, Hsoft.
  subst m. rewrite (continuesAs_api _ _ _ Hrun), Ha0. simpl app.
  split.
  - intros Ha. destruct (Hauth Ha) as (Hs & Hcalls & e & He & Hmsg).
    assert (Hv : validationPasses remote org (applicationName t) = false).
    { unfold validationPasses. rewrite Ha. now rewrite andb_false_r. }
    destruct (run_invalid inp env remote ref repo r Hr Hv) as (Hf & _).
    split; [exact Hf|].
    destruct (afterClassify_shape inp remote repo r)
      as [(_ & _ & Hafter)|(Hv' & _)]; [|fold t org in Hv'; congruence].
    fold t org in Hafter. rewrite Hafter.
    unfold api_calls. cbn [fst]. split; [exact Hcalls|].
    exists e. split; [exact He|].
    unfold continuesAs in Hrun. rewrite Hrun, Hafter. cbn [fst].
    now rewrite failures_quiet_prefix.
  - intros Ha. destruct (Hsoft Ha) as (rest & Hcalls).
    destruct (afterClassify_shape inp remote repo r)
      as [(_ & _ & Hafter)|(_ & pe & ee & _ & _ & _ & Hlogin)].
    + fold t org in Hafter.
      rewrite Hafter. unfold api_calls. cbn [fst]. now exists rest.
    + fold t org in Hlogin.
      rewrite (continuesAs_api _ _ _ Hlogin), Hcalls. simpl app.
      eexists. reflexivity.
Qed.

Lemma credential_probe_policy_witness :
  ready inputs0 (env_of "refs/heads/main" "owner/repo")
    "refs/heads/main" "owner/repo" (branchInfo "main") /\
  fulfilled (listApplications remote_probe_forbidden "org") = true /\
  rejectedFatal (getEcrLoginCredentials remote_probe_forbidden 0 "org") = true /\
  fatal (run inputs0 (env_of "refs/heads/main" "owner/repo")
           remote_probe_forbidden) = true /\
  api_calls (run inputs0 (env_of "refs/heads/main" "owner/repo")
               remote_probe_forbidden)
  = [Api (ListApplications "org"); Api (GetEcrLoginCredentials "org")] /\
  failures (fst (run inputs0 (env_of "refs/heads/main" "owner/repo")
                   remote_probe_forbidden))
  = ["Failed to validate organization credentials: Forbidden"] /\
  failures (fst (run inputs0 (env_of "refs/heads/main" "owner/repo")
                   remote_probe_null))
  = ["Cannot read properties of null (reading 'response')"].
Proof.
  assert (Hr : ready inputs0 (env_of "refs/heads/main" "owner/repo")
                 "refs/heads/main" "owner/repo" (branchInfo "main")).
  { unfold ready. repeat split; reflexivity. }
  destruct (credential_probe_policy inputs0
              (env_of "refs/heads/main" "owner/repo") remote_probe_forbidden
              "refs/heads/main" "owner/repo" (branchInfo "main") Hr eq_refl)
    as (Hauth & _).
  destruct (Hauth eq_refl) as (Hf & Hcalls & _).
  exact (conj Hr (conj eq_refl (conj eq_refl (conj Hf (conj Hcalls
           (conj eq_refl eq_refl)))))).
Defined.

(** * The earlier variant, [src/src/index.ts] *)

Example ex_legacy_run_tag :
  outputs (fst (IndexTs.run inputs0 (env_of "refs/tags/v1.2.0" "owner/repo")
                  remote_ok))
  = [("project_exists", Some "true");
     ("environment_exists", Some "true");
     ("quant_application", Some "repo");
     ("environment_name", Some "v1.2.0");
     ("is_production", Some "false");
     ("stripped_endpoint", Some "registry.example.com")].
Proof. reflexivity. Qed.

(** ** The pure helpers of the two variants compared *)

Lemma replace_dash_class (c : ascii) :
  (if IndexTs.isAlnumDotDash c then c else "-"%char)
  = (if JS.isAlnumDot c then c else "-"%char).
Proof. ascii_cases c. Qed.

Lemma legacy_slug (s : string) :
  JS.toLowerCase (JS.replaceOutside IndexTs.isAlnumDotDash s) = imageSlug s.
Proof.
  unfold imageSlug, JS.replaceOutside. f_equal.
  apply map_ext, replace_dash_class.
Qed.

(** On every branch name and [master_branch_override], the image suffix of
    [index.ts] is the one the later variant gives a branch ref: letting
    ["-"] through the replacement, as [index.ts] does, changes nothing,
    since ["-"] is what the other characters are replaced by. *)
Theorem legacy_image_suffix_agrees (branch masterBranchOverride : string) :
  IndexTs.generateImageSuffix branch masterBranchOverride
  = generateImageSuffix branch masterBranchOverride false false None.
Proof.
  unfold IndexTs.generateImageSuffix, generateImageSuffix.
  rewrite legacy_slug. reflexivity.
Qed.

(** The environment names of the two variants.  With an override both
    return it.  Without, on a name that does not begin with [feature/] the
    later variant gives the name of [index.ts] with every ["."] turned into
    ["-"]; on a [feature/] branch that is not a production branch,
    [index.ts] gives the one name [feature], whatever the branch, where the
    later variant gives the slug of the name. *)
Theorem legacy_environment_name
    (branch override masterBranchOverride : string) :
  (JS.truthy override = true ->
   IndexTs.generateEnvironmentName branch override masterBranchOverride
   = override /\
   generateEnvironmentName branch override masterBranchOverride
     false false None = override) /\
  (JS.truthy override = false ->
   JS.startsWith branch "feature/" = false ->
   generateEnvironmentName branch override masterBranchOverride
     false false None
   = JS.map dotToDash
       (IndexTs.generateEnvironmentName branch override masterBranchOverride)) /\
  (JS.truthy override = false ->
   JS.startsWith branch "feature/" = true ->
   isProductionBranch branch masterBranchOverride = false ->
   IndexTs.generateEnvironmentName branch override masterBranchOverride
   = "feature" /\
   generateEnvironmentName branch override masterBranchOverride
     false false None = envSlug branch).
Proof.
  unfold IndexTs.generateEnvironmentName, generateEnvironmentName.
  split; [|split].
  - intros ->. auto.
  - intros -> ->. cbn [andb].
    destruct (isProductionBranch branch masterBranchOverride);
      [reflexivity|].
    destruct (String.eqb branch "develop"); [reflexivity|].
    rewrite legacy_slug. fold (envSlug branch).
    rewrite envSlug_spec, imageSlug_spec, map_map.
    apply map_ext, envChar_of_imageChar.
  - intros -> Hf ->. cbn [andb]. rewrite Hf.
    destruct (String.eqb branch "develop") eqn:Hd.
    + apply String.eqb_eq in Hd. subst branch. discriminate Hf.
    + auto.
Qed.

Lemma legacy_environment_name_witness :
  JS.truthy "" = false /\
  JS.startsWith "feature/login.fix" "feature/" = true /\
  isProductionBranch "feature/login.fix" "" = false /\
  IndexTs.generateEnvironmentName "feature/login.fix" "" "" = "feature" /\
  generateEnvironmentName "feature/login.fix" "" "" false false None
  = "feature-login-fix" /\
  IndexTs.generateEnvironmentName "hotfix/1.2" "" "" = "hotfix-1.2" /\
  generateEnvironmentName "hotfix/1.2" "" "" false false None = "hotfix-1-2".
Proof.
  destruct (legacy_environment_name "feature/login.fix" "" "")
    as (_ & _ & Hf).
  destruct (Hf eq_refl eq_refl eq_refl) as (H1 & H2).
  destruct (legacy_environment_name "hotfix/1.2" "" "") as (_ & Hd & _).
  exact (conj eq_refl (conj eq_refl (conj eq_refl (conj H1 (conj H2
           (conj eq_refl (Hd eq_refl eq_refl))))))).
Defined.

(** ** The run of [index.ts] *)

Ltac split_legacy remote :=
  repeat (match goal with
  | |- context [getEcrLoginCredentials remote ?n ?o] =>
      destruct (getEcrLoginCredentials remote n o) as [[?|]|?]
  | |- context [exec_docker remote ?a] =>
      destruct (exec_docker remote a) as [[]|?]
  | |- context [JS.truthy (password ?d)] => destruct (JS.truthy (password d))
  | |- context [JS.truthy (endpoint ?d)] => destruct (JS.truthy (endpoint d))
  | |- context [JS.truthy (username ?d)] => destruct (JS.truthy (username d))
  | |- context [instanceofError ?e] => destruct (instanceofError e)
  | |- context [body_message ?e] => destruct (body_message e)
  | |- context [JS.truthy ?m] => destruct (JS.truthy m)
  | |- context [String.eqb ?m "Unable to find matching result"] =>
      destruct (String.eqb m "Unable to find matching result")
  end; simpl).

Lemma legacy_validate_facts (remote : Remote) (org envn : string) :
  let m := IndexTs.validate remote org envn in
  throws m = false /\
  filter is_api (fst m) = [Api (GetEcrLoginCredentials org)] /\
  outputs (fst m) = [] /\ filter is_exec (fst m) = [] /\
  match snd m with
  | Normal v => v = (true, true) /\ failures (fst m) = []
  | _ => exists msg, failures (fst m) = [msg]
  end.
Proof.
  unfold IndexTs.validate, throws.
  split_legacy remote;
    repeat split; try reflexivity; eexists; reflexivity.
Qed.

Lemma legacy_login_facts (remote : Remote) (org : string) (t : Target)
    (pe ee : bool) :
  let m := IndexTs.loginAndPublish remote org t pe ee in
  throws m = false /\
  api_calls m = [Api (GetEcrLoginCredentials org)] /\
  ((fatal m = true /\ outputs (fst m) = [] /\
    exists msg, failures (fst m) = [msg]) \/
   (fatal m = false /\ failures (fst m) = [] /\
    exists body,
      getEcrLoginCredentials remote 1 org = Fulfilled (Some body) /\
      outputs (fst m)
      = IndexTs.published t pe ee (stripProtocol (endpoint body)) /\
      execs m = [Exec "docker" (loginArgs body)])).
Proof.
  unfold IndexTs.loginAndPublish, IndexTs.dockerLogin, IndexTs.published,
    loginArgs, throws, api_calls, execs, fatal.
  split_legacy remote;
    (split; [reflexivity|]); (split; [reflexivity|]);
    first [ left; repeat split; try reflexivity; eexists; reflexivity
          | right; repeat split; try reflexivity;
            eexists; repeat split; reflexivity ].
Qed.

(** After classification [index.ts] logs what it resolved, then validates
    and logs in. *)
Lemma legacy_afterClassify_logs (inp : Inputs) (remote : Remote)
    (repo branch : string) (isTag : bool) :
  let t := IndexTs.resolve inp (derivedApplicationName inp repo) branch in
  exists pre,
    forallb is_log pre = true /\
    continuesAs (IndexTs.afterClassify inp remote repo branch isTag) pre
      (v <- IndexTs.validate remote (quant_organization inp)
              (environmentName t) ;;
       let '(projectExists, environmentExists) := v in
       IndexTs.loginAndPublish remote (quant_organization inp) t
         projectExists environmentExists).
Proof.
  intros t. subst t.
  unfold IndexTs.afterClassify, IndexTs.determineApplicationName,
    derivedApplicationName, continuesAs, info.
  destruct (JS.truthy (quant_application inp));
    rewrite bind_assoc, bind_emit; cbv beta;
    rewrite bind_ret; cbv zeta;
    rewrite (bind_emit (Log Info ("Branch: " ++ branch))); cbv beta;
    rewrite (bind_emit (Log Info ("Is tag: " ++ JS.show_bool isTag)));
    cbv beta;
    match goal with
    | |- context [bind (emit (Log Info ("Environment: " ++ ?e))) ?f] =>
        rewrite (bind_emit (Log Info ("Environment: " ++ e)) f)
    end; cbv beta;
    match goal with
    | |- context [bind (emit (Log Info ("Is production: " ++ ?e))) ?f] =>
        rewrite (bind_emit (Log Info ("Is production: " ++ e)) f)
    end; cbv beta;
    match goal with
    | |- context [bind (emit (Log Info ("Image suffix: " ++ ?e))) ?f] =>
        rewrite (bind_emit (Log Info ("Image suffix: " ++ e)) f)
    end; cbv beta;
    eexists [_; _; _; _; _; _]; (split; [|reflexivity]); reflexivity.
Qed.

(** What follows classification in [index.ts]: fatal without output, or
    one successful login and the six outputs. *)
Lemma legacy_afterClassify_facts (inp : Inputs) (remote : Remote)
    (repo branch : string) (isTag : bool) :
  let m := IndexTs.afterClassify inp remote repo branch isTag in
  let t := IndexTs.resolve inp (derivedApplicationName inp repo) branch in
  throws m = false /\
  prefixOf (api_calls m)
    [Api (GetEcrLoginCredentials (quant_organization inp));
     Api (GetEcrLoginCredentials (quant_organization inp))] /\
  ((fatal m = true /\ outputs (fst m) = [] /\
    exists msg, failures (fst m) = [msg]) \/
   (fatal m = false /\ failures (fst m) = [] /\
    exists body,
      getEcrLoginCredentials remote 1 (quant_organization inp)
      = Fulfilled (Some body) /\
      outputs (fst m)
      = IndexTs.published t true true (stripProtocol (endpoint body)) /\
      execs m = [Exec "docker" (loginArgs body)])).
Proof.
  intros m t. subst m.
  destruct (legacy_afterClassify_logs inp remote repo branch isTag)
    as (pre & Hq & Hrun).
  fold t in Hrun. unfold continuesAs in Hrun. rewrite Hrun. clear Hrun.
  destruct (quiet_observations pre Hq) as (Hf0 & Ho0 & Ha0 & Hx0).
  pose proof (quiet_failures pre Hq) as Hm0.
  destruct (legacy_validate_facts remote (quant_organization inp)
              (environmentName t)) as (Hthrow & Hapi & Hout & Hexec & Hv).
  cbv zeta in Hthrow, Hapi, Hout, Hexec, Hv.
  destruct (IndexTs.validate remote (quant_organization inp)
              (environmentName t)) as [tv cv].
  cbn [fst snd] in Hapi, Hout, Hexec, Hv. unfold throws in Hthrow.
  cbn [snd] in Hthrow.
  destruct cv as [v| |e]; [|clear Hthrow|discriminate Hthrow].
  - destruct Hv as (-> & Hfail). rewrite bind_normal.
    destruct (legacy_login_facts remote (quant_organization inp) t true true)
      as (Lthrow & Lapi & Lcases).
    cbv zeta in Lthrow, Lapi, Lcases.
    unfold throws, api_calls, execs, fatal in *. cbn [fst snd].
    rewrite !existsb_app, !outputs_app, !failures_app, !filter_app.
    fold (failed pre). fold (failed tv).
    assert (Hftv : failed tv = false).
    { clear -Hfail. induction tv as [|ev tv IH]; [reflexivity|].
      destruct ev; simpl in *; try discriminate; auto. }
    rewrite Hf0, Hftv, Ho0, Hout, Hm0, Hfail, Ha0, Hapi, Hx0, Hexec, Lapi.
    cbn [app orb]. split; [exact Lthrow|].
    split; [exists []; reflexivity|]. exact Lcases.
  - destruct Hv as (msg & Hfail).
    unfold throws, api_calls, execs, fatal. cbn [fst snd bind].
    rewrite !existsb_app, !outputs_app, !failures_app, !filter_app.
    fold (failed pre). fold (failed tv).
    assert (Hftv : failed tv = true).
    { clear -Hfail. induction tv as [|ev tv IH]; [discriminate|].
      destruct ev; simpl in *; auto. }
    rewrite Hf0, Hftv, Ho0, Hout, Hm0, Hfail, Ha0, Hapi.
    cbn [app orb]. split; [reflexivity|].
    split; [eexists [_]; reflexivity|].
    left. repeat split; try reflexivity. now exists msg.
Qed.

Lemma observations_quiet (pre : list Event) (k : M unit) :
  forallb is_log pre = true ->
  observations ((pre ++ fst k)%list, snd k) = observations k.
Proof.
  intros Hq. destruct (quiet_observations pre Hq) as (Hf & Ho & Ha & Hx).
  unfold observations, fatal, api_calls, execs. cbn [fst snd].
  fold (failed (pre ++ fst k)). fold (failed (fst k)).
  now rewrite failed_app, failures_app, outputs_app, !filter_app,
    (quiet_failures _ Hq), Hf, Ho, Ha, Hx.
Qed.

Lemma legacy_run_inputs_ok (inp : Inputs) (env : ProcessEnv) (remote : Remote)
    (ref repo : string) :
  JS.truthy (quant_api_key inp) = true ->
  JS.truthy (quant_organization inp) = true ->
  GITHUB_REF env = Some ref -> JS.truthy ref = true ->
  GITHUB_REPOSITORY env = Some repo -> JS.truthy repo = true ->
  exists pre,
    forallb is_log pre = true /\
    continuesAs (IndexTs.run inp env remote) pre
      (r <- IndexTs.classifyRef ref ;;
       let '(branch, isTag) := r in
       IndexTs.afterClassify inp remote repo branch isTag).
Proof.
  intros Hk Ho Href Hne Hrepo Htr.
  unfold IndexTs.run, getInput_required, continuesAs.
  rewrite Hk, Ho, Href, Hrepo, !bind_ret.
  destruct ref as [|c1 r1]; [discriminate|].
  destruct repo as [|c2 r2]; [discriminate|].
  destruct (JS.truthy (base_url inp)); cbn [negb].
  - unfold warning, info. rewrite bind_assoc, bind_emit. cbv beta.
    rewrite bind_ret, bind_emit. cbv beta zeta.
    eexists [_; _]. split; [|reflexivity]. reflexivity.
  - unfold info. rewrite bind_ret, bind_emit. cbv beta zeta.
    eexists [_]. split; [|reflexivity]. reflexivity.
Qed.

Lemma legacy_run_no_context (inp : Inputs) (env : ProcessEnv) (remote : Remote) :
  JS.truthy (quant_api_key inp) = true ->
  JS.truthy (quant_organization inp) = true ->
  JS.truthy_opt (GITHUB_REF env) && JS.truthy_opt (GITHUB_REPOSITORY env)
  = false ->
  exists pre,
    forallb is_log pre = true /\
    IndexTs.run inp env remote
    = ((pre ++ [SetFailed "GitHub context not available. This action must run in a GitHub Actions workflow."])%list,
       Return).
Proof.
  intros Hk Ho Hctx.
  unfold IndexTs.run, getInput_required. rewrite Hk, Ho, !bind_ret.
  destruct (GITHUB_REF env) as [[|c1 r1]|];
    destruct (GITHUB_REPOSITORY env) as [[|c2 r2]|];
    try discriminate Hctx;
    destruct (JS.truthy (base_url inp));
    first [ eexists [_; _]; split; [|reflexivity]; reflexivity
          | eexists [_]; split; [|reflexivity]; reflexivity ].
Qed.

Lemma legacy_classifyRef_cases (ref : string) :
  (exists branch isTag, IndexTs.classifyRef ref = ret (branch, isTag)) \/
  (JS.startsWith ref "refs/tags/" = false /\
   JS.startsWith ref "refs/heads/" = false /\
   IndexTs.classifyRef ref
   = ([SetFailed ("Unknown ref format: " ++ ref)], Return)).
Proof.
  unfold IndexTs.classifyRef.
  destruct (JS.startsWith ref "refs/tags/"); [left; eauto|].
  destruct (JS.startsWith ref "refs/heads/"); [left; eauto|].
  right. auto.
Qed.

(** The shape of a run of [index.ts]. *)
Lemma legacy_run_shape (inp : Inputs) (env : ProcessEnv) (remote : Remote) :
  (exists e, IndexTs.run inp env remote = ([], Throw e)) \/
  (exists pre msg,
     forallb is_log pre = true /\
     IndexTs.run inp env remote = ((pre ++ [SetFailed msg])%list, Return)) \/
  (exists repo branch isTag pre,
     forallb is_log pre = true /\
     continuesAs (IndexTs.run inp env remote) pre
       (IndexTs.afterClassify inp remote repo branch isTag)).
Proof.
  destruct (JS.truthy (quant_api_key inp)) eqn:Hk.
  2:{ left. unfold IndexTs.run, getInput_required. rewrite Hk.
      eexists; reflexivity. }
  destruct (JS.truthy (quant_organization inp)) eqn:Ho.
  2:{ left. unfold IndexTs.run, getInput_required. rewrite Hk, Ho.
      eexists; reflexivity. }
  right.
  destruct (JS.truthy_opt (GITHUB_REF env)
            && JS.truthy_opt (GITHUB_REPOSITORY env)) eqn:Hctx.
  2:{ left. destruct (legacy_run_no_context inp env remote Hk Ho Hctx)
        as (pre & Hq & Hrun). eauto. }
  destruct (GITHUB_REF env) as [ref|] eqn:Href; [|discriminate].
  destruct (GITHUB_REPOSITORY env) as [repo|] eqn:Hrepo;
    [|now rewrite andb_false_r in Hctx].
  simpl in Hctx. apply andb_prop in Hctx. destruct Hctx as (Hne & Htr).
  destruct (legacy_run_inputs_ok inp env remote _ _ Hk Ho Href Hne Hrepo Htr)
    as (pre & Hq & Hrun).
  destruct (legacy_classifyRef_cases ref)
    as [(branch & isTag & Hc)|(_ & _ & Hc)].
  - right. exists repo, branch, isTag, pre.
    rewrite Hc, bind_ret in Hrun. auto.
  - left. exists pre. eexists. split; [exact Hq|].
    unfold continuesAs in Hrun. now rewrite Hrun, Hc.
Qed.

(** A run of [index.ts] is fatal and publishes nothing, or it has logged
    in to the registry, once, and published its six outputs.  Among them
    [project_exists] and [environment_exists] are always [true];
    [image_suffix] and [image_suffix_clean] are never published, the suffix
    being computed and logged only; and [setFailed] is called at most
    once. *)
Theorem legacy_run_outputs
    (inp : Inputs) (env : ProcessEnv) (remote : Remote) :
  let m := IndexTs.run inp env remote in
  ((fatal m = true /\ outputs (fst m) = []) \/
   (fatal m = false /\
    exists repo branch body,
      outputs (fst m)
      = IndexTs.published
          (IndexTs.resolve inp (derivedApplicationName inp repo) branch)
          true true (stripProtocol (endpoint body)) /\
      execs m = [Exec "docker" (loginArgs body)])) /\
  output "image_suffix" m = None /\
  output "image_suffix_clean" m = None /\
  (failures (fst m) = [] \/ exists msg, failures (fst m) = [msg]).
Proof.
  intros m. subst m.
  destruct (legacy_run_shape inp env remote)
    as [(e & ->)|[(pre & msg & Hq & ->)
                 |(repo & branch & isTag & pre & Hq & Hrun)]].
  - split; [left; split; reflexivity|].
    split; [reflexivity|]. split; [reflexivity|]. now left.
  - destruct (quiet_observations pre Hq) as (Hf & Ho & _).
    unfold output, fatal. cbn [fst snd].
    fold (failed (pre ++ [SetFailed msg])).
    rewrite failed_app, outputs_app, failures_app, (quiet_failures _ Hq),
      Hf, Ho.
    split; [left; split; reflexivity|].
    split; [reflexivity|]. split; [reflexivity|]. right. now exists msg.
  - unfold continuesAs in Hrun. rewrite Hrun.
    pose proof (observations_quiet pre
                  (IndexTs.afterClassify inp remote repo branch isTag) Hq)
      as Hobs.
    unfold observations in Hobs. injection Hobs as Efatal Efail Eout _ Eexec.
    unfold output. cbn [fst]. rewrite Efatal, Efail, Eout, Eexec.
    destruct (legacy_afterClassify_facts inp remote repo branch isTag)
      as (_ & _ & [(Hf & Ho & msg & Hm)|(Hf & Hm & body & _ & Ho & Hx)]).
    + rewrite Hf, Ho, Hm.
      split; [left; split; reflexivity|].
      split; [reflexivity|]. split; [reflexivity|]. right. now exists msg.
    + rewrite Hf, Ho, Hm, Hx.
      split; [right; split; [reflexivity|]; exists repo, branch, body;
              split; reflexivity|].
      split; [reflexivity|]. split; [reflexivity|]. now left.
Qed.

(** A ref that begins neither with [refs/tags/] nor with [refs/heads/],
    every pull-request ref among them, is fatal for [index.ts]: no remote
    call, no command, no output, and with the inputs and the repository
    present the one failure message is [Unknown ref format] with the
    ref. *)
Theorem legacy_unknown_ref
    (inp : Inputs) (env : ProcessEnv) (remote : Remote) (ref : string) :
  GITHUB_REF env = Some ref ->
  JS.startsWith ref "refs/tags/" = false ->
  JS.startsWith ref "refs/heads/" = false ->
  let m := IndexTs.run inp env remote in
  fatal m = true /\ api_calls m = [] /\ execs m = [] /\
  outputs (fst m) = [] /\
  (JS.truthy (quant_api_key inp) = true ->
   JS.truthy (quant_organization inp) = true ->
   JS.truthy ref = true ->
   JS.truthy_opt (GITHUB_REPOSITORY env) = true ->
   failures (fst m) = ["Unknown ref format: " ++ ref]).
Proof.
  intros Href Ht Hh m. subst m.
  assert (Hc : IndexTs.classifyRef ref
               = ([SetFailed ("Unknown ref format: " ++ ref)], Return)).
  { unfold IndexTs.classifyRef. now rewrite Ht, Hh. }
  destruct (JS.truthy (quant_api_key inp)) eqn:Hk.
  2:{ unfold IndexTs.run, getInput_required. rewrite Hk.
      repeat split; try reflexivity. discriminate. }
  destruct (JS.truthy (quant_organization inp)) eqn:Ho.
  2:{ unfold IndexTs.run, getInput_required. rewrite Hk, Ho.
      repeat split; try reflexivity. discriminate. }
  destruct (JS.truthy_opt (GITHUB_REF env)
            && JS.truthy_opt (GITHUB_REPOSITORY env)) eqn:Hctx.
  - rewrite Href in Hctx.
    destruct (GITHUB_REPOSITORY env) as [repo|] eqn:Hrepo;
      [|now rewrite andb_false_r in Hctx].
    simpl in Hctx. apply andb_prop in Hctx. destruct Hctx as (Hne & Htr).
    destruct (legacy_run_inputs_ok inp env remote _ _ Hk Ho Href Hne Hrepo Htr)
      as (pre & Hq & Hrun).
    unfold continuesAs in Hrun. rewrite Hrun, Hc.
    destruct (quiet_observations pre Hq) as (Hf0 & Ho0 & Ha0 & Hx0).
    unfold fatal, api_calls, execs. cbn [fst snd bind].
    fold (failed (pre ++ [SetFailed ("Unknown ref format: " ++ ref)])).
    rewrite failed_app, outputs_app, !filter_app, failures_app,
      (quiet_failures _ Hq), Hf0, Ho0, Ha0, Hx0.
    repeat split; reflexivity.
  - destruct (legacy_run_no_context inp env remote Hk Ho Hctx)
      as (pre & Hq & ->).
    destruct (quiet_observations pre Hq) as (Hf0 & Ho0 & Ha0 & Hx0).
    unfold fatal, api_calls, execs. cbn [fst snd].
    match goal with
    | |- context [existsb is_setFailed ?t] => fold (failed t)
    end.
    rewrite failed_app, outputs_app, !filter_app, Hf0, Ho0, Ha0, Hx0.
    repeat split; try reflexivity.
    intros _ _ Hne Hrepo. rewrite Href in Hctx. simpl in Hctx.
    rewrite Hne, Hrepo in Hctx. discriminate Hctx.
Qed.

Lemma legacy_unknown_ref_witness :
  GITHUB_REF (env_of "refs/pull/42/merge" "owner/repo")
  = Some "refs/pull/42/merge" /\
  JS.startsWith "refs/pull/42/merge" "refs/tags/" = false /\
  JS.startsWith "refs/pull/42/merge" "refs/heads/" = false /\
  fatal (IndexTs.run inputs0 (env_of "refs/pull/42/merge" "owner/repo")
           remote_ok) = true /\
  api_calls (IndexTs.run inputs0 (env_of "refs/pull/42/merge" "owner/repo")
               remote_ok) = [] /\
  failures (fst (IndexTs.run inputs0
                   (env_of "refs/pull/42/merge" "owner/repo") remote_ok))
  = ["Unknown ref format: refs/pull/42/merge"].
Proof.
  destruct (legacy_unknown_ref inputs0
              (env_of "refs/pull/42/merge" "owner/repo") remote_ok
              "refs/pull/42/merge" eq_refl eq_refl eq_refl)
    as (Hf & Ha & _ & _ & Hm).
  exact (conj eq_refl (conj eq_refl (conj eq_refl (conj Hf (conj Ha
           (Hm eq_refl eq_refl eq_refl eq_refl)))))).
Defined.




